(** * The bridge event listener of [script.py], embedded in Rocq

    The script relays [TokensLocked] events of a bridge contract.  Three of
    its classes carry the logic studied here:

    - [StateDB]: the JSON-file-backed record of processed events;
    - [TransactionProcessor]: replay check, validation, simulated
      destination transaction, commit;
    - [BridgeEventListener.start_listening]: the polling loop.

    Python methods become functions of a small state-and-exception monad
    [Py] over the process state [Sys]; each run also yields the list of
    what it did (log records, sleeps, method calls), so that statements
    such as "the simulation is never invoked" can be made. *)

From stdpp Require Import gmap strings list fin_maps pretty.
From Stdlib Require Import ZArith Ascii String.

#[local] Set Warnings "-register-all".
#[local] Open Scope Z_scope.

(** ** Python values *)

(** What [json.load] can return.  A float is kept as its literal: nothing
    below computes with one. *)
Inductive json : Type :=
| JNull
| JBool (b : bool)
| JInt (z : Z)
| JFloat (lit : string)
| JStr (s : string)
| JList (l : list json)
| JDict (d : gmap string json).

(** ABI-decoded event arguments, as web3 hands them over. *)
Inductive value : Type :=
| VInt (z : Z)
| VBool (b : bool)
| VStr (s : string)
| VBytes (bs : list Byte.byte).

(** One entry of [event_filter.get_new_entries()]. *)
Record Event : Type := {
  transactionHash : list Byte.byte;
  logIndex : Z;
  args : gmap string value
}.

Inductive exn : Type :=
| FileNotFoundError
| PermissionError          (* an [OSError] other than [FileNotFoundError] *)
| JSONDecodeError
| IOError                  (* [OSError] raised while writing *)
| KeyError (k : string)
| TypeError
| ValueError
| UnicodeDecodeError       (* a [ValueError] that is no [JSONDecodeError] *)
| OverflowError.

(** ** The environment: the state file, the clock, the write faults *)

(** The file at [db_path], seen through [open] and [json.load]. *)
Inductive file : Type :=
| Absent                   (* no such file: [open] raises [FileNotFoundError] *)
| Unreadable               (* cannot be opened: another [OSError] is raised,
                              e.g. [PermissionError] *)
| Undecodable              (* bytes that are no text in the encoding of
                              [open]: reading raises [UnicodeDecodeError] *)
| Malformed                (* text that [json.load] rejects *)
| Document (v : json).     (* text that [json.load] decodes to [v] *)

(** How one [open(db_path, 'w')] / [json.dump] goes.  Opening for writing
    truncates the file; a dump cut short leaves a proper prefix of the
    serialised object, which is not JSON any more. *)
Inductive write_outcome : Type :=
| Written                  (* open, dump and close succeed *)
| OpenRefused              (* [open] raises: the file is not touched *)
| Interrupted.             (* opened (hence truncated), then the dump raises *)

(** The process state: the [_db] attribute of the one [StateDB] object,
    the file behind it, the wall clock in seconds, and the outcomes of the
    writes still to come (once exhausted, writes succeed). *)
Record Sys : Type := {
  _db : json;
  disk : file;
  clock : Z;
  faults : list write_outcome
}.

Definition set_db (v : json) (s : Sys) : Sys :=
  {| _db := v; disk := disk s; clock := clock s; faults := faults s |}.
Definition set_disk (f : file) (s : Sys) : Sys :=
  {| _db := _db s; disk := f; clock := clock s; faults := faults s |}.
Definition set_clock (t : Z) (s : Sys) : Sys :=
  {| _db := _db s; disk := disk s; clock := t; faults := faults s |}.
Definition set_faults (fs : list write_outcome) (s : Sys) : Sys :=
  {| _db := _db s; disk := disk s; clock := clock s; faults := fs |}.

(** ** Observations *)

Inductive level : Type := INFO | WARNING | ERROR | CRITICAL.

(** The log records of the script, one constructor per [logging] call,
    with the values its f-string interpolates. *)
Inductive msg : Type :=
| StateDB_initialized
| Db_not_found_or_invalid
| Failed_to_save (e : exn)
| Attempted_to_reprocess (tx_hash : string)
| Marked_as_processed (tx_hash : string)
| Processing_event (tx_hash : string)
| Already_processed_skipping (event_identifier : string)
| Malformed_event (event_identifier : string)
| Amount_must_be_positive (event_identifier : string)
| Event_valid_simulating (chain : value)
| Sim_creating (from : string) (recipient amount token : value) (signed_by : string)
| Sim_confirmed (amount : value)
| Successfully_processed (event_identifier : string)
| Cannot_start_listening
| Failed_to_create_filter
| Starting_listener_loop
| Connection_lost
| No_new_events
| Error_in_loop (e : exn).

Inductive Obs : Type :=
| Log (lv : level) (m : msg)
| Sleep (secs : Z)
| Call_simulate (event_args : gmap string value)       (* [_simulate_destination_tx] entered *)
| Return_simulate (event_args : gmap string value)     (* ... and returned normally *)
| Call_mark (tx_hash : string) (event_data : gmap string value). (* [mark_as_processed] entered *)

(** ** The monad *)

Inductive result (A : Type) : Type :=
| Ret (a : A)
| Raise (e : exn).
Arguments Ret {A} a.
Arguments Raise {A} e.

Definition Py (A : Type) : Type := Sys → result A * Sys * list Obs.

Definition ret {A} (a : A) : Py A := fun s => (Ret a, s, []).
Definition raise {A} (e : exn) : Py A := fun s => (Raise e, s, []).
Definition bind {A B} (m : Py A) (k : A → Py B) : Py B :=
  fun s =>
    match m s with
    | (Ret a, s1, t1) => let '(r, s2, t2) := k a s1 in (r, s2, t1 ++ t2)
    | (Raise e, s1, t1) => (Raise e, s1, t1)
    end.

(** [try: m except <handles>: h] *)
Definition try_except {A} (m : Py A) (handles : exn → bool) (h : exn → Py A) : Py A :=
  fun s =>
    match m s with
    | (Raise e, s1, t1) =>
        if handles e then let '(r, s2, t2) := h e s1 in (r, s2, t1 ++ t2)
        else (Raise e, s1, t1)
    | done => done
    end.

Notation "'let*' x ':=' m 'in' k" := (bind m (fun x => k))
  (at level 10, x name, m at level 99, k at level 200).
Notation "m ';;' k" := (bind m (fun _ => k))
  (at level 100, k at level 200, right associativity).

Definition emit (o : Obs) : Py unit := fun s => (Ret tt, s, [o]).
Definition logging (lv : level) (m : msg) : Py unit := emit (Log lv m).
Definition get_db : Py json := fun s => (Ret (_db s), s, []).
Definition put_db (v : json) : Py unit := fun s => (Ret tt, set_db v s, []).

(** [int(time.time())] *)
Definition time_time : Py Z := fun s => (Ret (clock s), s, []).
(** The longest sleep, in whole seconds, that [time.sleep] takes: CPython
    keeps the length in nanoseconds in 64 bits. *)
Definition sleep_max : Z := 9223372036.

(** What [time.sleep(n)] raises for an [int] [n]: a negative length is a
    [ValueError], one that does not fit an [OverflowError]. *)
Definition sleep_error (n : Z) : option exn :=
  if n <? 0 then Some ValueError
  else if sleep_max <? n then Some OverflowError
  else None.

(** [time.sleep(n)]; when it raises, nothing has been slept. *)
Definition time_sleep (n : Z) : Py unit :=
  match sleep_error n with
  | Some e => raise e
  | None => fun s => (Ret tt, set_clock (clock s + n) s, [Sleep n])
  end.

Definition res {A} (r : result A * Sys * list Obs) : result A := r.1.1.
Definition post {A} (r : result A * Sys * list Obs) : Sys := r.1.2.
Definition obs {A} (r : result A * Sys * list Obs) : list Obs := r.2.

(** ** File access *)

(** [with open(self.db_path, 'r') as f: return json.load(f)] *)
Definition read_db_file : Py json :=
  fun s =>
    match disk s with
    | Absent => (Raise FileNotFoundError, s, [])
    | Unreadable => (Raise PermissionError, s, [])
    | Undecodable => (Raise UnicodeDecodeError, s, [])
    | Malformed => (Raise JSONDecodeError, s, [])
    | Document v => (Ret v, s, [])
    end.

(** [with open(self.db_path, 'w') as f: json.dump(self._db, f, indent=4)] *)
Definition write_db_file : Py unit :=
  fun s =>
    match faults s with
    | [] | Written :: _ =>
        (Ret tt, set_faults (tail (faults s)) (set_disk (Document (_db s)) s), [])
    | OpenRefused :: rest =>
        (Raise IOError, set_faults rest s, [])
    | Interrupted :: rest =>
        (Raise IOError, set_faults rest (set_disk Malformed s), [])
    end.

(** ** [StateDB] *)

Definition is_FileNotFound_or_JSONDecode (e : exn) : bool :=
  match e with FileNotFoundError | JSONDecodeError => true | _ => false end.

(** [except IOError]: in Python 3 [IOError] is [OSError], whose subclasses
    include the two file errors above. *)
Definition is_IOError (e : exn) : bool :=
  match e with IOError | FileNotFoundError | PermissionError => true | _ => false end.

Definition _load_db : Py json :=
  try_except read_db_file is_FileNotFound_or_JSONDecode
    (fun _ => logging WARNING Db_not_found_or_invalid ;; ret (JDict ∅)).

Definition _save_db : Py unit :=
  try_except write_db_file is_IOError
    (fun e => logging ERROR (Failed_to_save e)).

(** [StateDB.__init__]: also what a restarted process does first. *)
Definition StateDB_init : Py unit :=
  let* d := _load_db in
  put_db d ;;
  logging INFO StateDB_initialized.

(** [needle in haystack] for two [str]: substring test. *)
Fixpoint str_contains (needle haystack : string) : bool :=
  String.prefix needle haystack ||
  match haystack with
  | EmptyString => false
  | String _ rest => str_contains needle rest
  end.

(** [x == key] for a JSON value [x] and a [str]. *)
Definition json_eq_str (x : json) (key : string) : bool :=
  match x with JStr s => String.eqb s key | _ => false end.

(** [key in container], by the type of the container. *)
Definition py_in (key : string) (container : json) : result bool :=
  match container with
  | JDict d => Ret (bool_decide (is_Some (d !! key)))
  | JList l => Ret (existsb (fun x => json_eq_str x key) l)
  | JStr s => Ret (str_contains key s)
  | JNull | JBool _ | JInt _ | JFloat _ => Raise TypeError
  end.

(** [container[key] = v] with a [str] key: only a [dict] takes it. *)
Definition py_setitem (container : json) (key : string) (v : json) : result json :=
  match container with
  | JDict d => Ret (JDict (<[key := v]> d))
  | _ => Raise TypeError
  end.

Definition lift {A} (r : result A) : Py A := fun s => (r, s, []).

Definition has_processed (tx_hash : string) : Py bool :=
  let* d := get_db in
  lift (py_in tx_hash d).

(** What a restarted process answers: it builds its [StateDB] from the
    file, then is asked. *)
Definition has_processed_after_restart (tx_hash : string) : Py bool :=
  StateDB_init ;;
  has_processed tx_hash.

(** Library functions and configuration the script relies on. *)
Class Library : Type := {
  py_str : gmap string value → string;
    (* [str(event_data)] *)
  to_checksum_address : value → option string;
    (* [Web3.to_checksum_address]; [None] when it raises *)
  destination_chain_signer_key : string
    (* [os.getenv("DESTINATION_SIGNER_KEY", "0x_placeholder_key")] *)
}.

Section Script.
Context `{lib : Library}.

Definition processed_record (now : Z) (event_data : gmap string value) : json :=
  JDict (<["timestamp" := JInt now]> (<["event_data" := JStr (py_str event_data)]> ∅)).

Definition mark_as_processed (tx_hash : string) (event_data : gmap string value) : Py unit :=
  emit (Call_mark tx_hash event_data) ;;
  let* seen := has_processed tx_hash in
  if seen then
    logging WARNING (Attempted_to_reprocess tx_hash)
  else
    let* now := time_time in
    let* d := get_db in
    let* d' := lift (py_setitem d tx_hash (processed_record now event_data)) in
    put_db d' ;;
    _save_db ;;
    logging INFO (Marked_as_processed tx_hash).

(** ** [TransactionProcessor] *)

(** [event['transactionHash'].hex()], as [bytes.hex] spells it: two
    lower-case digits per byte, no prefix. *)
Definition hex_digit (n : N) : Ascii.ascii :=
  default "0"%char (String.get (N.to_nat n) "0123456789abcdef").
Definition hex_byte (b : Byte.byte) : string :=
  let n := Byte.to_N b in
  String (hex_digit (n / 16)) (String (hex_digit (n mod 16)) EmptyString).
Fixpoint hex (bs : list Byte.byte) : string :=
  match bs with
  | [] => EmptyString
  | b :: rest => hex_byte b +:+ hex rest
  end.

(** [f"{tx_hash}-{log_index}"] *)
Definition event_identifier (event : Event) : string :=
  hex (transactionHash event) +:+ "-" +:+ pretty (logIndex event).

(** [event_args[k]] *)
Definition getitem (event_args : gmap string value) (k : string) : Py value :=
  match event_args !! k with
  | Some v => ret v
  | None => raise (KeyError k)
  end.

(** [k in event_args] *)
Definition has_key (event_args : gmap string value) (k : string) : bool :=
  bool_decide (is_Some (event_args !! k)).

(** [v <= 0]: defined on [int] and [bool], a [TypeError] on [str] and
    [bytes]. *)
Definition le_zero (v : value) : result bool :=
  match v with
  | VInt z => Ret (z <=? 0)
  | VBool b => Ret (negb b)
  | VStr _ | VBytes _ => Raise TypeError
  end.

Definition required_arguments : list string :=
  ["sender"; "token"; "amount"; "destinationChainId"].

Definition checksum (v : value) : Py string :=
  match to_checksum_address v with
  | Some a => ret a
  | None => raise ValueError
  end.

Definition _simulate_destination_tx (event_args : gmap string value) : Py unit :=
  emit (Call_simulate event_args) ;;
  (* tx_details = {...}: the values are evaluated in the order written *)
  let* sender := getitem event_args "sender" in
  let* from := checksum sender in
  let* recipient := getitem event_args "recipient" in
  let* amount := getitem event_args "amount" in
  let* token := getitem event_args "token" in
  let signed_by := String.substring 0 10 destination_chain_signer_key +:+ "..." in
  logging INFO (Sim_creating from recipient amount token signed_by) ;;
  (* Simulate a network delay for the transaction *)
  time_sleep 1 ;;
  let* amount' := getitem event_args "amount" in
  logging INFO (Sim_confirmed amount') ;;
  emit (Return_simulate event_args).

Definition process_lock_event (event : Event) : Py unit :=
  let tx_hash := hex (transactionHash event) in
  let event_identifier := event_identifier event in
  logging INFO (Processing_event tx_hash) ;;
  (* 1. Replay protection *)
  let* seen := has_processed event_identifier in
  if seen then
    logging WARNING (Already_processed_skipping event_identifier)
  else
    (* 2. Validation *)
    let event_args := args event in
    if negb (forallb (has_key event_args) required_arguments) then
      logging ERROR (Malformed_event event_identifier)
    else
      let* amount := getitem event_args "amount" in
      let* non_positive := lift (le_zero amount) in
      if non_positive then
        logging ERROR (Amount_must_be_positive event_identifier)
      else
        (* 3. Simulate the destination chain transaction *)
        let* chain := getitem event_args "destinationChainId" in
        logging INFO (Event_valid_simulating chain) ;;
        _simulate_destination_tx event_args ;;
        (* 4. Mark as processed *)
        mark_as_processed event_identifier event_args ;;
        logging INFO (Successfully_processed event_identifier).

(** The validation step of [process_lock_event] (its lines under
    "2. Validation") on its own: what it decides about the arguments. *)
Inductive verdict : Type :=
| Valid
| MissingField
| NonPositiveAmount
| Incomparable.            (* [amount <= 0] raises *)

Definition validate (event_args : gmap string value) : verdict :=
  if negb (forallb (has_key event_args) required_arguments) then MissingField
  else
    match event_args !! "amount" with
    | None => MissingField
    | Some amount =>
        match le_zero amount with
        | Ret true => NonPositiveAmount
        | Ret false => Valid
        | Raise _ => Incomparable
        end
    end.

(** ** [BridgeEventListener.start_listening] *)

(** [for event in events: self.processor.process_lock_event(event)] *)
Fixpoint for_each_event (events : list Event) : Py unit :=
  match events with
  | [] => ret tt
  | event :: rest => process_lock_event event ;; for_each_event rest
  end.

(** What one turn of the loop meets: the connection is down, or it is up
    and [get_new_entries()] returns a list or raises. *)
Inductive poll : Type :=
| Disconnected
| Connected (get_new_entries : result (list Event)).

(** One turn of [while True]; [false] stands for [break].  A
    [KeyboardInterrupt] is not modelled. *)
Definition loop_turn (poll_interval : Z) (p : poll) : Py bool :=
  try_except
    (match p with
     | Disconnected => logging ERROR Connection_lost ;; ret false
     | Connected get_new_entries =>
         let* events := lift get_new_entries in
         (match events with
          | [] => logging INFO No_new_events
          | _ => for_each_event events
          end) ;;
         time_sleep poll_interval ;;
         ret true
     end)
    (fun _ => true)
    (fun e =>
       logging ERROR (Error_in_loop e) ;;
       time_sleep (poll_interval * 2) ;;
       ret true).

(** How far a run has come: the method has returned, or it is still in
    its [while True] when the polls that were given are used up. *)
Inductive ending : Type :=
| Returned
| Still_polling.

(** The loop, run against the polls the environment answers with.  It is
    left by [break] only; a run that has used up its polls has not left
    it. *)
Fixpoint listening_loop (poll_interval : Z) (polls : list poll) : Py ending :=
  match polls with
  | [] => ret Still_polling
  | p :: rest =>
      let* again := loop_turn poll_interval p in
      if again then listening_loop poll_interval rest else ret Returned
  end.

Definition start_listening (contract_ready filter_created : bool)
    (poll_interval : Z) (polls : list poll) : Py ending :=
  if negb contract_ready then
    logging ERROR Cannot_start_listening ;;
    ret Returned
  else if negb filter_created then
    logging CRITICAL Failed_to_create_filter ;;
    ret Returned
  else
    logging INFO Starting_listener_loop ;;
    listening_loop poll_interval polls.

(** The order of steps as the specification words its Draining state:
    validate, then the deduplication check, then execute, then commit.
    It is here only to be compared with [process_lock_event]. *)
Definition process_lock_event_validate_first (event : Event) : Py unit :=
  let tx_hash := hex (transactionHash event) in
  let event_identifier := event_identifier event in
  let event_args := args event in
  logging INFO (Processing_event tx_hash) ;;
  match validate event_args with
  | MissingField => logging ERROR (Malformed_event event_identifier)
  | NonPositiveAmount => logging ERROR (Amount_must_be_positive event_identifier)
  | Incomparable => raise TypeError
  | Valid =>
      let* seen := has_processed event_identifier in
      if seen then
        logging WARNING (Already_processed_skipping event_identifier)
      else
        let* chain := getitem event_args "destinationChainId" in
        logging INFO (Event_valid_simulating chain) ;;
        _simulate_destination_tx event_args ;;
        mark_as_processed event_identifier event_args ;;
        logging INFO (Successfully_processed event_identifier)
  end.

(** ** Sequences of [StateDB] operations *)

(** What a client can do with the state store; [Reload] is a process
    restart: a new [StateDB] is built from the file. *)
Inductive op : Type :=
| Has_processed (tx_hash : string)
| Mark_as_processed (tx_hash : string) (event_data : gmap string value)
| Reload.

Definition run_op (o : op) : Py unit :=
  match o with
  | Has_processed k => has_processed k ;; ret tt
  | Mark_as_processed k d => mark_as_processed k d
  | Reload => StateDB_init
  end.

(** The state after a sequence of operations; an operation that raises
    leaves the state it reached and the next one goes on from there. *)
Definition run_ops (ops : list op) (s : Sys) : Sys :=
  fold_left (fun s o => post (run_op o s)) ops s.

Definition is_reload (o : op) : bool :=
  match o with Reload => true | _ => false end.

End Script.

(** Every write still to come goes through. *)
Definition writes_succeed (s : Sys) : Prop :=
  Forall (fun w => w = Written) (faults s).

(** File and map agree and hold the key. *)
Definition committed (k : string) (s : Sys) : Prop :=
  ∃ m, _db s = JDict m ∧ is_Some (m !! k) ∧ disk s = Document (JDict m).

(** A restart would change nothing: the file holds the map, or there is
    no usable file and the map is empty. *)
Definition in_step (s : Sys) : Prop :=
  disk s = Document (_db s) ∨
  ((disk s = Absent ∨ disk s = Malformed) ∧ _db s = JDict ∅).

(** The file holds a document that has the key. *)
Definition file_knows (k : string) (s : Sys) : Prop :=
  ∃ v, disk s = Document v ∧ py_in k v = Ret true.

(** Nothing is left to do for the event: its key is in the map, or the
    replay check passes it on and the validation turns it down. *)
Definition settled (e : Event) (s : Sys) : Prop :=
  py_in (event_identifier e) (_db s) = Ret true ∨
  (py_in (event_identifier e) (_db s) = Ret false ∧
   (validate (args e) = MissingField ∨ validate (args e) = NonPositiveAmount)).

(** Reading two hexadecimal digits back as a byte; used to show that
    [hex] loses nothing. *)
Definition hex_value (c : Ascii.ascii) : option N :=
  N.of_nat <$> String.index 0 (String c EmptyString) "0123456789abcdef".
Definition unhex_byte (c1 c2 : Ascii.ascii) : option Byte.byte :=
  match hex_value c1, hex_value c2 with
  | Some n1, Some n2 => Byte.of_N (n1 * 16 + n2)
  | _, _ => None
  end.

(** ** Reading traces *)

Definition is_call_simulate (o : Obs) : bool :=
  match o with Call_simulate _ => true | _ => false end.
Definition is_call_mark (o : Obs) : bool :=
  match o with Call_mark _ _ => true | _ => false end.

Definition simulate_calls (tr : list Obs) : nat :=
  List.length (List.filter is_call_simulate tr).
Definition mark_calls (tr : list Obs) : nat :=
  List.length (List.filter is_call_mark tr).

(** The transaction hashes of the events taken up, in the order of their
    "Processing event" records. *)
Fixpoint events_started (tr : list Obs) : list string :=
  match tr with
  | [] => []
  | Log INFO (Processing_event tx_hash) :: rest => tx_hash :: events_started rest
  | _ :: rest => events_started rest
  end.

(** ** A concrete library and concrete inputs, for the examples *)

Definition sample_library : Library := {|
  py_str := fun event_data =>
    "AttributeDict(" +:+ String.concat ", " (map_to_list event_data).*1 +:+ ")";
  to_checksum_address := fun v =>
    match v with VStr a => Some a | _ => None end;
  destination_chain_signer_key := "0x_placeholder_key"
|}.

Definition empty_sys : Sys :=
  {| _db := JDict ∅; disk := Absent; clock := 1700000000; faults := [] |}.

(** A start on a state file whose bytes are no text, e.g. the two bytes
    [ff fe] read as UTF-8. *)
Definition undecodable_sys : Sys := set_disk Undecodable empty_sys.

(** A process whose next write is refused at [open]. *)
Definition refusing_sys : Sys := set_faults [OpenRefused] empty_sys.

(** A process that has committed one event, file and map in step, and
    whose next write is cut short. *)
Definition committed_map : gmap string json :=
  <["aa-0" := JDict (<["timestamp" := JInt 1699999999]>
                     (<["event_data" := JStr "AttributeDict()"]> ∅))]> ∅.
Definition committed_db : json := JDict committed_map.
Definition committed_sys : Sys :=
  {| _db := committed_db; disk := Document committed_db;
     clock := 1700000000; faults := [Interrupted] |}.

Definition sample_args (amount : Z) : gmap string value :=
  <["sender" := VStr "0x00000000000000000000000000000000000000a1"]>
  (<["token" := VStr "0x00000000000000000000000000000000000000b2"]>
  (<["amount" := VInt amount]>
  (<["destinationChainId" := VInt 2]>
  (<["recipient" := VBytes [Byte.xc3]]> ∅)))).

Definition sample_event (log_index amount : Z) : Event :=
  {| transactionHash := [Byte.x01]; logIndex := log_index; args := sample_args amount |}.

(** A lock event without its [recipient]. *)
Definition no_recipient_event : Event :=
  {| transactionHash := [Byte.x01]; logIndex := 0;
     args := delete "recipient" (sample_args 50) |}.

(** A lock event with amount zero and no [sender]. *)
Definition zero_amount_no_sender_event : Event :=
  {| transactionHash := [Byte.x01]; logIndex := 0;
     args := delete "sender" (sample_args 0) |}.

(** A process that has relayed event ["01-0"], and that event delivered
    again with its [token] gone. *)
Definition relayed_sys : Sys :=
  post (process_lock_event (lib:=sample_library) (sample_event 0 50) empty_sys).
Definition redelivered_without_token : Event :=
  {| transactionHash := [Byte.x01]; logIndex := 0;
     args := delete "token" (sample_args 50) |}.

(** The batch of two events of one transaction, and a process that has
    relayed it. *)
Definition two_events : list Event := [sample_event 0 50; sample_event 1 75].
Definition relayed_two_sys : Sys :=
  post (for_each_event (lib:=sample_library) two_events empty_sys).

(** ** [BlockchainConnector], [BridgeEventListener.__init__] and [main]

    The connector and the start-up of the program work on more than the
    state store: the [web3] attribute of the connector, and a network
    that answers.  They get a monad of their own, [Prog], over the state
    [World], into which the methods above are lifted. *)

(** What can end a run of the program: an exception of the code above,
    or one of the network. *)
Inductive failure : Type :=
| Py_raised (e : exn)
| ConnectionError              (* the builtin, raised by [_connect] itself *)
| Requests_ConnectionError     (* [requests.exceptions.ConnectionError] *)
| Requests_Timeout.            (* a provider error that is no connection error *)

(** [except (requests.exceptions.ConnectionError, ConnectionError)] *)
Definition is_ConnectionError (f : failure) : bool :=
  match f with ConnectionError | Requests_ConnectionError => true | _ => false end.

(** How the node answers one connection attempt. *)
Inductive node_answer : Type :=
| Up (chain_id : Z)            (* [is_connected()] is true, the chain id is read *)
| Up_then_raises (f : failure) (* [is_connected()] is true, reading the chain id raises *)
| Down.                        (* [is_connected()] is false *)

(** How [web3.eth.contract(...)] answers. *)
Inductive binding : Type :=
| Bound
| Mismatched_ABI
| Binding_raises.

Record Contract : Type := { contract_address : string }.

Inductive net_msg : Type :=
| Attempting_to_connect (rpc_url : string) (attempt retries : Z)
| Connected_to_chain (chain_id : Z)
| Connection_attempt_failed (f : failure)
| Retrying_in (delay : Z)
| All_attempts_failed
| Cannot_get_contract
| ABI_mismatch (address : string)
| Failed_to_instantiate (address : string)
| Cannot_setup_contract
| Failed_to_initialize_contract
| Contract_initialized (address : string)
| Missing_environment
| Please_create_env_file.

Inductive Ev : Type :=
| Core (o : Obs)
| Net (lv : level) (m : net_msg).

Record World : Type := {
  sys : Sys;
  web3 : option string         (* [connector.web3]: the provider's URL *)
}.

Inductive outcome (A : Type) : Type :=
| Done (a : A)
| Failed (f : failure).
Arguments Done {A} a.
Arguments Failed {A} f.

Definition Prog (A : Type) : Type := World → outcome A * World * list Ev.

Definition pret {A} (a : A) : Prog A := fun w => (Done a, w, []).
Definition praise {A} (f : failure) : Prog A := fun w => (Failed f, w, []).
Definition pbind {A B} (m : Prog A) (k : A → Prog B) : Prog B :=
  fun w =>
    match m w with
    | (Done a, w1, t1) => let '(r, w2, t2) := k a w1 in (r, w2, t1 ++ t2)
    | (Failed f, w1, t1) => (Failed f, w1, t1)
    end.
Definition ptry_except {A} (m : Prog A) (handles : failure → bool)
    (h : failure → Prog A) : Prog A :=
  fun w =>
    match m w with
    | (Failed f, w1, t1) =>
        if handles f then let '(r, w2, t2) := h f w1 in (r, w2, t1 ++ t2)
        else (Failed f, w1, t1)
    | done => done
    end.

Notation "'let+' x ':=' m 'in' k" := (pbind m (fun x => k))
  (at level 10, x name, m at level 99, k at level 200).
Notation "m ';+' k" := (pbind m (fun _ => k))
  (at level 100, k at level 200, right associativity).

Definition net_log (lv : level) (m : net_msg) : Prog unit :=
  fun w => (Done tt, w, [Net lv m]).
Definition get_web3 : Prog (option string) := fun w => (Done (web3 w), w, []).
Definition set_web3 (h : option string) : Prog unit :=
  fun w => (Done tt, {| sys := sys w; web3 := h |}, []).

(** A method of the state store, the processor or the loop, run as part
    of the program. *)
Definition lift_py {A} (m : Py A) : Prog A :=
  fun w =>
    let '(r, s1, t) := m (sys w) in
    (match r with Ret a => Done a | Raise e => Failed (Py_raised e) end,
     {| sys := s1; web3 := web3 w |},
     List.map Core t).

Definition answer_of (answers : list node_answer) : node_answer :=
  match answers with a :: _ => a | [] => Down end.

(** The body of [for attempt in range(retries)], from [attempt] on, with
    [todo] turns left. *)
Fixpoint connect_loop (rpc_url : string) (retries delay : Z)
    (attempt : Z) (todo : nat) (answers : list node_answer) : Prog unit :=
  match todo with
  | O => pret tt
  | S todo' =>
      let+ connected :=
        ptry_except
          (net_log INFO (Attempting_to_connect rpc_url (attempt + 1) retries) ;+
           set_web3 (Some rpc_url) ;+
           match answer_of answers with
           | Up chain_id =>
               net_log INFO (Connected_to_chain chain_id) ;+
               pret true
           | Up_then_raises f => praise f
           | Down => praise ConnectionError
           end)
          is_ConnectionError
          (fun f =>
             net_log ERROR (Connection_attempt_failed f) ;+
             if attempt <? retries - 1 then
               net_log INFO (Retrying_in delay) ;+
               lift_py (time_sleep delay) ;+
               pret false
             else
               net_log CRITICAL All_attempts_failed ;+
               praise f) in
      if connected then pret tt
      else connect_loop rpc_url retries delay (attempt + 1) todo' (tail answers)
  end.

Definition _connect (rpc_url : string) (retries delay : Z)
    (answers : list node_answer) : Prog unit :=
  connect_loop rpc_url retries delay 0 (Z.to_nat retries) answers.

(** [BlockchainConnector.__init__], with its defaults when called as
    [BlockchainConnector(rpc_url=...)]. *)
Definition BlockchainConnector_init (rpc_url : string)
    (connection_retries retry_delay : Z) (answers : list node_answer) : Prog unit :=
  set_web3 None ;+
  _connect rpc_url connection_retries retry_delay answers.

(** [self.web3 is not None and self.web3.is_connected()]; [live] is what
    the node would answer. *)
Definition is_connected (live : bool) : Prog bool :=
  let+ h := get_web3 in
  pret (match h with Some _ => live | None => false end).

Section Program.
Context `{lib : Library}.

Definition get_contract (live : bool) (answer : binding) (address : string) :
    Prog (option Contract) :=
  let+ up := is_connected live in
  let+ h := get_web3 in
  if negb up || negb (bool_decide (is_Some h)) then
    net_log ERROR Cannot_get_contract ;+
    pret None
  else
    match to_checksum_address (VStr address) with
    | None =>
        (* [except Exception] *)
        net_log ERROR (Failed_to_instantiate address) ;+
        pret None
    | Some checksummed =>
        match answer with
        | Bound => pret (Some {| contract_address := checksummed |})
        | Mismatched_ABI =>
            net_log ERROR (ABI_mismatch address) ;+
            pret None
        | Binding_raises =>
            net_log ERROR (Failed_to_instantiate address) ;+
            pret None
        end
    end.

(** What the environment holds and answers during one run of [main]. *)
Record Env : Type := {
  RPC_URL : option string;
  BRIDGE_CONTRACT_ADDRESS : option string;
  node_answers : list node_answer;  (* the answers to the connection attempts *)
  setup_live : bool;             (* [is_connected()] in [_setup_contract] *)
  get_contract_live : bool;      (* [is_connected()] in [get_contract] *)
  contract_binding : binding;
  filter_created : bool;         (* [create_filter] returns, or raises *)
  polls : list poll
}.

Definition _setup_contract (env : Env) (address : string) : Prog (option Contract) :=
  let+ up := is_connected (setup_live env) in
  if negb up then
    net_log CRITICAL Cannot_setup_contract ;+
    pret None
  else
    let+ contract := get_contract (get_contract_live env) (contract_binding env) address in
    match contract with
    | None =>
        net_log CRITICAL Failed_to_initialize_contract ;+
        pret None
    | Some c =>
        net_log INFO (Contract_initialized address) ;+
        pret (Some c)
    end.

(** [not x] for the result of [os.getenv]. *)
Definition not_set (x : option string) : bool :=
  match x with
  | None => true
  | Some v => String.eqb v EmptyString
  end.

(** [BridgeEventListener(config)] followed by
    [listener.start_listening(poll_interval=10)]. *)
Definition run_listener (env : Env) (rpc_url address : string) : Prog ending :=
  BlockchainConnector_init rpc_url 3 5 (node_answers env) ;+
  lift_py StateDB_init ;+
  let+ contract := _setup_contract env address in
  let+ h := get_web3 in
  lift_py (start_listening
             (bool_decide (is_Some contract) && bool_decide (is_Some h))
             (filter_created env) 10 (polls env)).

Definition main (env : Env) : Prog ending :=
  if not_set (RPC_URL env) || not_set (BRIDGE_CONTRACT_ADDRESS env) then
    net_log CRITICAL Missing_environment ;+
    net_log CRITICAL Please_create_env_file ;+
    pret Returned
  else
    run_listener env (default EmptyString (RPC_URL env))
      (default EmptyString (BRIDGE_CONTRACT_ADDRESS env)).

End Program.

Definition pres {A} (r : outcome A * World * list Ev) : outcome A := r.1.1.
Definition ppost {A} (r : outcome A * World * list Ev) : World := r.1.2.
Definition pobs {A} (r : outcome A * World * list Ev) : list Ev := r.2.

(** Reading the traces of the program. *)
Definition is_attempt (ev : Ev) : bool :=
  match ev with Net INFO (Attempting_to_connect _ _ _) => true | _ => false end.
Definition attempts_made (tr : list Ev) : nat :=
  List.length (List.filter is_attempt tr).
Definition is_core (ev : Ev) : bool :=
  match ev with Core _ => true | Net _ _ => false end.

(** An answer that makes [_connect] try again. *)
Definition refuses (a : node_answer) : bool :=
  match a with
  | Down => true
  | Up_then_raises f => is_ConnectionError f
  | Up _ => false
  end.

(** The exception an attempt with that answer ends in. *)
Definition refusal (a : node_answer) : failure :=
  match a with Up_then_raises f => f | _ => ConnectionError end.

Definition with_polls (ps : list poll) (env : Env) : Env :=
  {| RPC_URL := RPC_URL env;
     BRIDGE_CONTRACT_ADDRESS := BRIDGE_CONTRACT_ADDRESS env;
     node_answers := node_answers env;
     setup_live := setup_live env;
     get_contract_live := get_contract_live env;
     contract_binding := contract_binding env;
     filter_created := filter_created env;
     polls := ps |}.

Definition start_world : World :=
  {| sys := empty_sys; web3 := None |}.

Definition sample_env : Env := {|
  RPC_URL := Some "https://rpc.example";
  BRIDGE_CONTRACT_ADDRESS := Some "0x00000000000000000000000000000000000000c4";
  node_answers := [Down; Up 11155111];
  setup_live := true;
  get_contract_live := true;
  contract_binding := Bound;
  filter_created := true;
  polls := [Connected (Ret two_events); Disconnected]
|}.

(** A process whose state file held a JSON array, and one whose state
    file held a number. *)
Definition array_sys : Sys := set_db (JList []) empty_sys.


(** An environment whose node never lets a connection through, and one
    whose contract does not fit the ABI. *)
Definition down_env : Env := {|
  RPC_URL := Some "https://rpc.example";
  BRIDGE_CONTRACT_ADDRESS := Some "0x00000000000000000000000000000000000000c4";
  node_answers := [Down; Up_then_raises Requests_ConnectionError];
  setup_live := true;
  get_contract_live := true;
  contract_binding := Bound;
  filter_created := true;
  polls := [Connected (Ret two_events); Disconnected]
|}.

Definition mismatched_env : Env := {|
  RPC_URL := Some "https://rpc.example";
  BRIDGE_CONTRACT_ADDRESS := Some "0x00000000000000000000000000000000000000c4";
  node_answers := [Up 11155111];
  setup_live := true;
  get_contract_live := true;
  contract_binding := Mismatched_ABI;
  filter_created := true;
  polls := []
|}.

(** A start on a state file that cannot be read. *)
Definition unreadable_world : World :=
  {| sys := set_disk Unreadable empty_sys; web3 := None |}.

(** * Properties *)

(** ** The state store *)

Section StateDB_properties.
Context `{lib : Library}.

Lemma set_db_same (s : Sys) : set_db (_db s) s = s.
Proof. by destruct s. Qed.

Lemma has_processed_eq (k : string) (s : Sys) :
  has_processed k s = (py_in k (_db s), s, []).
Proof. reflexivity. Qed.

Lemma _save_db_eq (s : Sys) :
  _save_db s =
    match faults s with
    | [] | Written :: _ =>
        (Ret tt, set_faults (tail (faults s)) (set_disk (Document (_db s)) s), [])
    | OpenRefused :: rest =>
        (Ret tt, set_faults rest s, [Log ERROR (Failed_to_save IOError)])
    | Interrupted :: rest =>
        (Ret tt, set_faults rest (set_disk Malformed s),
         [Log ERROR (Failed_to_save IOError)])
    end.
Proof.
  unfold _save_db, try_except, write_db_file.
  destruct (faults s) as [|[] rest]; reflexivity.
Qed.

Lemma _save_db_returns (s : Sys) : res (_save_db s) = Ret tt.
Proof. rewrite _save_db_eq. by destruct (faults s) as [|[] ?]. Qed.

Lemma _save_db_keeps_db (s : Sys) : _db (post (_save_db s)) = _db s.
Proof. rewrite _save_db_eq. by destruct (faults s) as [|[] ?]. Qed.

Lemma _load_db_eq (s : Sys) :
  _load_db s =
    match disk s with
    | Absent | Malformed => (Ret (JDict ∅), s, [Log WARNING Db_not_found_or_invalid])
    | Unreadable => (Raise PermissionError, s, [])
    | Undecodable => (Raise UnicodeDecodeError, s, [])
    | Document v => (Ret v, s, [])
    end.
Proof.
  unfold _load_db, try_except, read_db_file. by destruct (disk s).
Qed.

Lemma StateDB_init_eq (s : Sys) :
  StateDB_init s =
    match disk s with
    | Absent | Malformed =>
        (Ret tt, set_db (JDict ∅) s,
         [Log WARNING Db_not_found_or_invalid; Log INFO StateDB_initialized])
    | Unreadable => (Raise PermissionError, s, [])
    | Undecodable => (Raise UnicodeDecodeError, s, [])
    | Document v => (Ret tt, set_db v s, [Log INFO StateDB_initialized])
    end.
Proof.
  unfold StateDB_init, bind. rewrite _load_db_eq. by destruct (disk s).
Qed.

(** The three ways [mark_as_processed] can go before it touches anything. *)
Lemma mark_seen (k : string) (d : gmap string value) (s : Sys) :
  py_in k (_db s) = Ret true →
  mark_as_processed k d s =
    (Ret tt, s, [Call_mark k d; Log WARNING (Attempted_to_reprocess k)]).
Proof.
  intros Hin. unfold mark_as_processed, bind, emit, has_processed, get_db, lift.
  cbn. rewrite Hin. reflexivity.
Qed.

Lemma mark_raises (k : string) (d : gmap string value) (s : Sys) (e : exn) :
  py_in k (_db s) = Raise e →
  mark_as_processed k d s = (Raise e, s, [Call_mark k d]).
Proof.
  intros Hin. unfold mark_as_processed, bind, emit, has_processed, get_db, lift.
  cbn. rewrite Hin. reflexivity.
Qed.

Lemma mark_not_a_dict (k : string) (d : gmap string value) (s : Sys) :
  py_in k (_db s) = Ret false →
  (∀ m, _db s ≠ JDict m) →
  mark_as_processed k d s = (Raise TypeError, s, [Call_mark k d]).
Proof.
  intros Hin Hnd.
  unfold mark_as_processed, bind, emit, has_processed, get_db, lift, time_time.
  cbn. rewrite Hin. cbn.
  destruct (_db s) eqn:E; try reflexivity. by destruct (Hnd d0).
Qed.

(** The call that really inserts: the map is a [dict] without the key. *)
Lemma mark_fresh (k : string) (d : gmap string value) (s : Sys) (m : gmap string json) :
  _db s = JDict m → m !! k = None →
  let s1 := set_db (JDict (<[k := processed_record (clock s) d]> m)) s in
  mark_as_processed k d s =
    (Ret tt, post (_save_db s1),
     Call_mark k d :: obs (_save_db s1) ++ [Log INFO (Marked_as_processed k)]).
Proof.
  intros Hdb Hk s1.
  assert (Hin : py_in k (_db s) = Ret false).
  { rewrite Hdb. cbn. f_equal. apply bool_decide_eq_false. rewrite Hk.
    by intros [? ?]. }
  unfold mark_as_processed, bind, emit, has_processed, get_db, lift, time_time,
    put_db, logging.
  cbn. rewrite Hin. cbn. rewrite Hdb. cbn.
  fold s1. pose proof (_save_db_returns s1) as Hr.
  destruct (_save_db s1) as [[r s2] t]. cbn in Hr. subst r. reflexivity.
Qed.

Lemma py_in_dict (k : string) (m : gmap string json) :
  py_in k (JDict m) = Ret (bool_decide (is_Some (m !! k))).
Proof. reflexivity. Qed.

Lemma py_in_dict_false (k : string) (m : gmap string json) :
  py_in k (JDict m) = Ret false → m !! k = None.
Proof.
  rewrite py_in_dict. intros [=Hb]. apply bool_decide_eq_false in Hb.
  destruct (m !! k) eqn:E; [|done]. destruct Hb. by eexists.
Qed.

Lemma py_in_dict_None (k : string) (m : gmap string json) :
  m !! k = None → py_in k (JDict m) = Ret false.
Proof.
  intros Hk. rewrite py_in_dict, Hk. reflexivity.
Qed.

Lemma py_in_insert (k k' : string) (v : json) (m : gmap string json) :
  py_in k (JDict m) = Ret true ∨ k = k' →
  py_in k (JDict (<[k' := v]> m)) = Ret true.
Proof.
  intros Hk. rewrite py_in_dict. f_equal. apply bool_decide_eq_true.
  destruct (decide (k' = k)) as [-> | Hne].
  - rewrite lookup_insert_eq. by eexists.
  - rewrite lookup_insert_ne by done. destruct Hk as [Hk | ->]; [|done].
    rewrite py_in_dict in Hk. injection Hk as Hk.
    by apply bool_decide_eq_true in Hk.
Qed.

(** How [mark_as_processed] goes, by what the map is and holds: the key is
    there already, or the call raises before touching anything, or the map
    is a [dict] that gets the new record and is saved. *)
Lemma mark_cases (k : string) (d : gmap string value) (s : Sys) :
  (py_in k (_db s) = Ret true ∧
   mark_as_processed k d s =
     (Ret tt, s, [Call_mark k d; Log WARNING (Attempted_to_reprocess k)])) ∨
  (∃ e, mark_as_processed k d s = (Raise e, s, [Call_mark k d])) ∨
  (∃ m, _db s = JDict m ∧ m !! k = None ∧
     mark_as_processed k d s =
       (let s1 := set_db (JDict (<[k := processed_record (clock s) d]> m)) s in
        (Ret tt, post (_save_db s1),
         Call_mark k d :: obs (_save_db s1) ++ [Log INFO (Marked_as_processed k)]))).
Proof.
  destruct (py_in k (_db s)) as [[|]|e] eqn:Hin.
  - left. split; [done|]. by apply mark_seen.
  - destruct (_db s) as [| | | | |l|m] eqn:Hdb.
    1-6: right; left; exists TypeError; apply mark_not_a_dict;
         rewrite Hdb; [exact Hin | intros m'; discriminate].
    right. right. exists m. split; [done|]. split; [by apply py_in_dict_false|].
    apply mark_fresh; [done | by apply py_in_dict_false].
  - right. left. exists e. by apply mark_raises.
Qed.

(** A call that returns leaves the key in the map. *)
Lemma mark_returns_known (k : string) (d : gmap string value) (s : Sys) :
  res (mark_as_processed k d s) = Ret tt →
  py_in k (_db (post (mark_as_processed k d s))) = Ret true.
Proof.
  intros Hret.
  destruct (mark_cases k d s) as [[Hin E]|[[e E]|(m & Hdb & Hk & E)]];
    rewrite E in Hret |- *; cbn in *.
  - done.
  - done.
  - unfold post. cbn. fold (post (_save_db
      (set_db (JDict (<[k:=processed_record (clock s) d]> m)) s))).
    rewrite _save_db_keeps_db. cbn. apply py_in_insert. by right.
Qed.

(** No call takes a key out of the map. *)
Lemma mark_keeps_known (k k' : string) (d : gmap string value) (s : Sys) :
  py_in k (_db s) = Ret true →
  py_in k (_db (post (mark_as_processed k' d s))) = Ret true.
Proof.
  intros Hk.
  destruct (mark_cases k' d s) as [[Hin E]|[[e E]|(m & Hdb & Hk' & E)]];
    rewrite E; cbn; try done.
  unfold post. cbn. fold (post (_save_db
    (set_db (JDict (<[k':=processed_record (clock s) d]> m)) s))).
  rewrite _save_db_keeps_db. cbn. apply py_in_insert. left. by rewrite <- Hdb.
Qed.

Lemma _save_db_succeeds (s : Sys) :
  writes_succeed s →
  _save_db s =
    (Ret tt, set_faults (tail (faults s)) (set_disk (Document (_db s)) s), []).
Proof.
  unfold writes_succeed. intros Hw. rewrite _save_db_eq.
  destruct (faults s) as [|w rest]; [done|].
  apply Forall_cons in Hw as [-> _]. done.
Qed.

Lemma writes_succeed_tail (s s' : Sys) :
  writes_succeed s → faults s' = tail (faults s) → writes_succeed s'.
Proof.
  unfold writes_succeed. intros Hw ->. destruct (faults s); [done|].
  by apply Forall_cons in Hw as [_ ?].
Qed.

Lemma run_op_has_state (k : string) (s : Sys) :
  post (run_op (Has_processed k) s) = s.
Proof.
  unfold run_op, bind, has_processed, get_db, lift. cbn.
  by destruct (py_in k (_db s)).
Qed.

(** In a process whose writes go through, a committed key stays committed
    across [mark_as_processed], [has_processed] and restarts. *)
Lemma committed_step (k : string) (o : op) (s : Sys) :
  committed k s → writes_succeed s →
  committed k (post (run_op o s)) ∧ writes_succeed (post (run_op o s)).
Proof.
  intros (m & Hdb & Hk & Hdisk) Hw. destruct o as [k'|k' d|].
  - rewrite run_op_has_state. split; [by exists m | done].
  - cbn [run_op].
    destruct (mark_cases k' d s) as [[Hin E]|[[e E]|(m' & Hdb' & Hk' & E)]];
      rewrite E; cbn; try (split; [by exists m | done]).
    rewrite Hdb in Hdb'. injection Hdb' as <-.
    set (s1 := set_db _ s). rewrite (_save_db_succeeds s1) by done.
    split; [|by eapply writes_succeed_tail].
    eexists. split; [reflexivity|]. split; [|reflexivity].
    destruct (decide (k' = k)) as [-> | Hne].
    + rewrite lookup_insert_eq. by eexists.
    + by rewrite lookup_insert_ne.
  - cbn [run_op]. rewrite StateDB_init_eq, Hdisk, <- Hdb, set_db_same. cbn.
    split; [by exists m | done].
Qed.

Lemma committed_run_ops (k : string) (ops : list op) (s : Sys) :
  committed k s → writes_succeed s →
  committed k (run_ops ops s).
Proof.
  revert s. induction ops as [|o ops IH]; intros s Hc Hw; [done|].
  cbn. destruct (committed_step k o s Hc Hw). by apply IH.
Qed.

Lemma known_run_ops (k : string) (ops : list op) (s : Sys) :
  existsb is_reload ops = false →
  py_in k (_db s) = Ret true →
  py_in k (_db (run_ops ops s)) = Ret true.
Proof.
  revert s. induction ops as [|o ops IH]; intros s Hnr Hk; [done|].
  cbn in Hnr. apply orb_false_iff in Hnr as [Ho Hnr].
  cbn. apply IH; [done|]. destruct o as [k'|k' d|]; [|by apply mark_keeps_known|done].
  by rewrite run_op_has_state.
Qed.

(** C1 (as amended). Once [mark_as_processed(k, _)] has returned,
    [has_processed(k)] answers [True] on every later call of the same
    process, whatever calls of [has_processed] and [mark_as_processed]
    come in between.  When the file holds [k] after the call, because the
    call inserted [k] or file and map agreed on it before, and the writes
    from then on succeed, this also holds across any number of restarts
    from the file. *)
Theorem has_processed_after_mark (k : string) (d : gmap string value) (s : Sys) :
  res (mark_as_processed k d s) = Ret tt →
  let s1 := post (mark_as_processed k d s) in
  (∀ ops, existsb is_reload ops = false →
     res (has_processed k (run_ops ops s1)) = Ret true) ∧
  (res (has_processed k s) = Ret false ∨ committed k s → writes_succeed s →
   ∀ ops, res (has_processed k (run_ops ops s1)) = Ret true).
Proof.
  intros Hret s1. split.
  - intros ops Hnr. rewrite has_processed_eq. cbn.
    apply known_run_ops; [done|]. by apply mark_returns_known.
  - intros Hnew Hw ops. rewrite has_processed_eq in Hnew. cbn in Hnew.
    assert (committed k s1 ∧ writes_succeed s1) as [Hc Hw1].
    { subst s1.
      destruct (mark_cases k d s) as [[Hin E]|[[e E]|(m & Hdb & Hk & E)]].
      - rewrite E. cbn. destruct Hnew as [Hnew|Hc]; [congruence|done].
      - rewrite E in Hret. done.
      - rewrite E. cbn. set (s0 := set_db _ s).
        rewrite (_save_db_succeeds s0) by done. cbn.
        split; [|by eapply writes_succeed_tail].
        eexists. split; [reflexivity|]. split; [|reflexivity].
        rewrite lookup_insert_eq. by eexists. }
    destruct (committed_run_ops k ops s1 Hc Hw1) as (m & Hdb & Hk & _).
    rewrite has_processed_eq. cbn. rewrite Hdb, py_in_dict. f_equal.
    by apply bool_decide_eq_true.
Qed.

(** C3 (as amended). Of two calls [mark_as_processed(k, _)] the first
    returns and so does the second: it raises nothing, logs the
    "Attempted to re-process" warning and leaves map, file and the rest of
    the state as the first call left them, at whatever time and with
    whatever snapshot it is made. *)
Theorem mark_as_processed_twice (k : string) (d1 d2 : gmap string value)
    (s : Sys) (later : Z) :
  res (mark_as_processed k d1 s) = Ret tt →
  let s1 := set_clock later (post (mark_as_processed k d1 s)) in
  mark_as_processed k d2 s1 =
    (Ret tt, s1, [Call_mark k d2; Log WARNING (Attempted_to_reprocess k)]).
Proof.
  intros Hret s1. apply mark_seen. subst s1. cbn.
  by apply mark_returns_known.
Qed.

(** The cold start that the [except] clause of [_load_db] covers: when
    the state file is missing, or holds text that [json.load] rejects,
    building the [StateDB] returns normally, with a warning, and the map
    is the empty [dict]: no key is known. *)
Theorem StateDB_init_cold_start (s : Sys) :
  disk s = Absent ∨ disk s = Malformed →
  StateDB_init s =
    (Ret tt, set_db (JDict ∅) s,
     [Log WARNING Db_not_found_or_invalid; Log INFO StateDB_initialized]) ∧
  ∀ k, res (has_processed k (post (StateDB_init s))) = Ret false.
Proof.
  intros Hd. rewrite StateDB_init_eq. by destruct Hd as [-> | ->].
Qed.

(** What the [except] clause does not cover: a file that cannot be opened
    stops the start-up, and so does one whose bytes are no text. *)
Lemma StateDB_init_unreadable (s : Sys) :
  disk s = Unreadable → StateDB_init s = (Raise PermissionError, s, []).
Proof. intros Hd. by rewrite StateDB_init_eq, Hd. Qed.

Lemma StateDB_init_undecodable (s : Sys) :
  disk s = Undecodable → StateDB_init s = (Raise UnicodeDecodeError, s, []).
Proof. intros Hd. by rewrite StateDB_init_eq, Hd. Qed.

(** C10. When the write behind [mark_as_processed] fails, the call still
    returns normally: the [IOError] is logged, not raised, and the map
    keeps the new key.  [has_processed(k)] is then [True] in this process,
    while a process restarted from the file, which did not know [k]
    before the call, still does not. *)
Theorem mark_as_processed_swallows_write_failure
    (k : string) (d : gmap string value) (s : Sys) (m : gmap string json)
    (w : write_outcome) (rest : list write_outcome) :
  _db s = JDict m → m !! k = None →
  faults s = w :: rest → w ≠ Written →
  res (has_processed_after_restart k s) = Ret false →
  let r := mark_as_processed k d s in
  res r = Ret tt ∧
  In (Log ERROR (Failed_to_save IOError)) (obs r) ∧
  res (has_processed k (post r)) = Ret true ∧
  res (has_processed_after_restart k (post r)) = Ret false.
Proof.
  intros Hdb Hk Hf Hw Hfile r. subst r.
  rewrite (mark_fresh k d s m Hdb Hk). cbn zeta.
  set (s1 := set_db _ s).
  assert (Hd1 : disk s1 = disk s) by done.
  assert (Hf1 : faults s1 = w :: rest) by done.
  revert Hfile. unfold has_processed_after_restart, bind.
  rewrite !StateDB_init_eq, _save_db_eq, Hf1.
  destruct w; [done| |]; cbn.
  - intros Hfile. split; [done|]. split; [by right; left|]. split.
    + by rewrite lookup_insert_eq.
    + by destruct (disk s).
  - intros _. split; [done|]. split; [by right; left|]. split; [|done].
    by rewrite lookup_insert_eq.
Qed.

(** C7 (as amended). [mark_as_processed] writes the file in place and
    reports no write failure.  If the failure is at [open], the file is
    left as it was.  If it comes after [open] has truncated the file, the
    earlier content is gone: what is left is not valid JSON, and a process
    restarted from it knows no key. *)
Theorem failed_write_rewrites_in_place
    (k : string) (d : gmap string value) (s : Sys) (m : gmap string json)
    (rest : list write_outcome) :
  _db s = JDict m → m !! k = None →
  let r := mark_as_processed k d s in
  (faults s = OpenRefused :: rest →
     res r = Ret tt ∧ disk (post r) = disk s) ∧
  (faults s = Interrupted :: rest →
     res r = Ret tt ∧ disk (post r) = Malformed ∧
     ∀ k', res (has_processed_after_restart k' (post r)) = Ret false).
Proof.
  intros Hdb Hk r. subst r.
  rewrite (mark_fresh k d s m Hdb Hk). cbn zeta.
  set (s1 := set_db _ s).
  split; intros Hf.
  - assert (Hf1 : faults s1 = OpenRefused :: rest) by done.
    rewrite _save_db_eq, Hf1. done.
  - assert (Hf1 : faults s1 = Interrupted :: rest) by done.
    unfold has_processed_after_restart, bind.
    rewrite _save_db_eq, Hf1. cbn. done.
Qed.

End StateDB_properties.

(** ** Traces *)

Lemma simulate_calls_app (t1 t2 : list Obs) :
  simulate_calls (t1 ++ t2) = (simulate_calls t1 + simulate_calls t2)%nat.
Proof. unfold simulate_calls. by rewrite List.filter_app, length_app. Qed.

Lemma mark_calls_app (t1 t2 : list Obs) :
  mark_calls (t1 ++ t2) = (mark_calls t1 + mark_calls t2)%nat.
Proof. unfold mark_calls. by rewrite List.filter_app, length_app. Qed.

Lemma events_started_app (t1 t2 : list Obs) :
  events_started (t1 ++ t2) = events_started t1 ++ events_started t2.
Proof.
  induction t1 as [|o t1 IH]; [done|].
  destruct o as [[] []| | | |]; cbn; by rewrite ?IH.
Qed.

Lemma mark_calls_split (pre suf : list Obs) (k : string) (d : gmap string value) :
  mark_calls (pre ++ Call_mark k d :: suf) = S (mark_calls pre + mark_calls suf).
Proof. rewrite mark_calls_app. unfold mark_calls. cbn. lia. Qed.

Lemma no_commit (tr pre suf : list Obs) (k : string) (d : gmap string value) :
  mark_calls tr = 0%nat → tr ≠ pre ++ Call_mark k d :: suf.
Proof. intros H0 ->. rewrite mark_calls_split in H0. lia. Qed.

(** Where two lists are appended, an element of the whole sits in the
    first or in the second. *)
Lemma split_app {A} (t1 t2 pre suf : list A) (x : A) :
  t1 ++ t2 = pre ++ x :: suf →
  (∃ mid, t1 = pre ++ x :: mid ∧ suf = mid ++ t2) ∨
  (∃ mid, pre = t1 ++ mid ∧ t2 = mid ++ x :: suf).
Proof.
  revert pre. induction t1 as [|a t1 IH]; intros pre E.
  - right. by exists pre.
  - destruct pre as [|b pre]; cbn in E; injection E as -> E.
    + left. by exists t1.
    + destruct (IH pre E) as [(mid & -> & ->)|(mid & -> & ->)].
      * left. by exists mid.
      * right. by exists mid.
Qed.

(** A trace with one commit only: every way to cut it at a commit cuts it
    there. *)
Lemma sole_commit (before after pre suf : list Obs) (k k' : string)
    (d d' : gmap string value) :
  mark_calls before = 0%nat → mark_calls after = 0%nat →
  before ++ Call_mark k d :: after = pre ++ Call_mark k' d' :: suf →
  pre = before ∧ k' = k ∧ d' = d.
Proof.
  intros Hb Ha E. apply split_app in E as [(mid & E & _)|(mid & -> & E)].
  - by apply no_commit in E.
  - destruct mid as [|o mid]; cbn in E.
    + injection E as -> -> _. by rewrite app_nil_r.
    + injection E as _ E. by apply no_commit in E.
Qed.

(** ** The processor and the listener *)

(** The order "commit only after a returned execute" carries over from two
    traces to the two put end to end. *)
Lemma commit_order_app (t1 t2 : list Obs) :
  (∀ pre k d suf, t1 = pre ++ Call_mark k d :: suf → In (Return_simulate d) pre) →
  (∀ pre k d suf, t2 = pre ++ Call_mark k d :: suf → In (Return_simulate d) pre) →
  ∀ pre k d suf, t1 ++ t2 = pre ++ Call_mark k d :: suf → In (Return_simulate d) pre.
Proof.
  intros H1 H2 pre k d suf E.
  apply split_app in E as [(mid & E & _)|(mid & -> & E)].
  - by eapply H1.
  - apply in_or_app. right. by eapply H2.
Qed.

(** ** Sleeping *)

Lemma time_sleep_eq (n : Z) (s : Sys) :
  time_sleep n s =
    match sleep_error n with
    | Some e => (Raise e, s, [])
    | None => (Ret tt, set_clock (clock s + n) s, [Sleep n])
    end.
Proof. unfold time_sleep. by destruct (sleep_error n). Qed.

Lemma sleep_error_None (n : Z) : 0 <= n <= sleep_max → sleep_error n = None.
Proof.
  intros [H0 H1]. unfold sleep_error.
  destruct (Z.ltb_spec n 0); [lia|]. destruct (Z.ltb_spec sleep_max n); [lia|done].
Qed.


Lemma sleep_error_twice (n : Z) :
  0 <= n → n * 2 <= sleep_max → sleep_error n = None ∧ sleep_error (n * 2) = None.
Proof. intros H0 H1. split; apply sleep_error_None; lia. Qed.

Section Processor_properties.
Context `{lib : Library}.

Lemma required_present (a : gmap string value) :
  forallb (has_key a) required_arguments = true →
  ∃ sender token amount chain,
    a !! "sender" = Some sender ∧ a !! "token" = Some token ∧
    a !! "amount" = Some amount ∧ a !! "destinationChainId" = Some chain.
Proof.
  cbn. rewrite !andb_true_iff. unfold has_key.
  intros (H1 & H2 & H3 & H4 & _).
  apply bool_decide_eq_true in H1 as [v1 H1], H2 as [v2 H2],
    H3 as [v3 H3], H4 as [v4 H4].
  by exists v1, v2, v3, v4.
Qed.

(** What a run of the simulation leaves behind, when it returns and when
    it raises. *)
Lemma _simulate_destination_tx_eq (a : gmap string value) (s : Sys) :
  _simulate_destination_tx a s =
    match a !! "sender" with
    | None => (Raise (KeyError "sender"), s, [Call_simulate a])
    | Some sender =>
        match to_checksum_address sender with
        | None => (Raise ValueError, s, [Call_simulate a])
        | Some from =>
            match a !! "recipient", a !! "amount", a !! "token" with
            | None, _, _ => (Raise (KeyError "recipient"), s, [Call_simulate a])
            | Some _, None, _ => (Raise (KeyError "amount"), s, [Call_simulate a])
            | Some _, Some _, None => (Raise (KeyError "token"), s, [Call_simulate a])
            | Some recipient, Some amount, Some token =>
                (Ret tt, set_clock (clock s + 1) s,
                 [Call_simulate a;
                  Log INFO (Sim_creating from recipient amount token
                              (String.substring 0 10 destination_chain_signer_key
                               +:+ "..."));
                  Sleep 1;
                  Log INFO (Sim_confirmed amount);
                  Return_simulate a])
            end
        end
    end.
Proof.
  unfold _simulate_destination_tx, bind, emit, getitem, checksum,
    logging, time_sleep, ret, raise.
  cbn.
  destruct (a !! "sender") as [sender|]; cbn; [|done].
  destruct (to_checksum_address sender) as [from|]; cbn; [|done].
  destruct (a !! "recipient") as [recipient|]; cbn; [|done].
  destruct (a !! "amount") as [amount|]; cbn; [|done].
  destruct (a !! "token") as [token|]; cbn; done.
Qed.

(** The simulation touches neither the map nor the file. *)
Lemma simulate_keeps_store (a : gmap string value) (s : Sys) :
  let s1 := post (_simulate_destination_tx a s) in
  _db s1 = _db s ∧ disk s1 = disk s ∧ faults s1 = faults s.
Proof.
  rewrite _simulate_destination_tx_eq.
  destruct (a !! "sender") as [sender|]; [|done].
  destruct (to_checksum_address sender); [|done].
  by destruct (a !! "recipient"), (a !! "amount"), (a !! "token").
Qed.

(** Its trace: entered once, no commit, and the return mark is there
    exactly when it returned. *)
Lemma simulate_trace (a : gmap string value) (s : Sys) :
  let r := _simulate_destination_tx a s in
  simulate_calls (obs r) = 1%nat ∧ mark_calls (obs r) = 0%nat ∧
  (res r = Ret tt → In (Return_simulate a) (obs r)) ∧
  (∀ x, res r = Raise x → ¬ In (Return_simulate a) (obs r)).
Proof.
  rewrite _simulate_destination_tx_eq.
  destruct (a !! "sender") as [sender|];
    [|by repeat split; cbn; try done; intros x _ [?|[]]].
  destruct (to_checksum_address sender);
    [|by repeat split; cbn; try done; intros x _ [?|[]]].
  destruct (a !! "recipient"), (a !! "amount"), (a !! "token");
    repeat split; cbn; try done; try (by intros x _ [?|[]]).
  intros _. do 4 right. by left.
Qed.

Lemma simulate_started (a : gmap string value) (s : Sys) :
  events_started (obs (_simulate_destination_tx a s)) = [].
Proof.
  rewrite _simulate_destination_tx_eq.
  destruct (a !! "sender") as [sender|]; [|done].
  destruct (to_checksum_address sender); [|done].
  by destruct (a !! "recipient"), (a !! "amount"), (a !! "token").
Qed.

Lemma mark_trace (k : string) (d : gmap string value) (s : Sys) :
  ∃ t, obs (mark_as_processed k d s) = Call_mark k d :: t ∧
       mark_calls t = 0%nat ∧ simulate_calls t = 0%nat ∧ events_started t = [].
Proof.
  destruct (mark_cases k d s) as [[_ E]|[[e E]|(m & _ & _ & E)]]; rewrite E.
  - by eexists.
  - by eexists.
  - cbn zeta. set (s1 := set_db _ s). eexists. split; [reflexivity|].
    rewrite _save_db_eq. by destruct (faults s1) as [|[] ?].
Qed.

(** The whole of [process_lock_event], by the replay check, then the
    validation, then what the simulation and the commit do. *)
Lemma process_lock_event_eq (e : Event) (s : Sys) :
  process_lock_event e s =
    let id := event_identifier e in
    let started := Log INFO (Processing_event (hex (transactionHash e))) in
    match py_in id (_db s) with
    | Raise x => (Raise x, s, [started])
    | Ret true => (Ret tt, s, [started; Log WARNING (Already_processed_skipping id)])
    | Ret false =>
        match validate (args e) with
        | MissingField => (Ret tt, s, [started; Log ERROR (Malformed_event id)])
        | NonPositiveAmount =>
            (Ret tt, s, [started; Log ERROR (Amount_must_be_positive id)])
        | Incomparable => (Raise TypeError, s, [started])
        | Valid =>
            let valid :=
              match args e !! "destinationChainId" with
              | Some chain => [Log INFO (Event_valid_simulating chain)]
              | None => []
              end in
            match _simulate_destination_tx (args e) s with
            | (Raise x, s1, t1) => (Raise x, s1, started :: valid ++ t1)
            | (Ret _, s1, t1) =>
                match mark_as_processed id (args e) s1 with
                | (Raise x, s2, t2) => (Raise x, s2, started :: valid ++ t1 ++ t2)
                | (Ret _, s2, t2) =>
                    (Ret tt, s2,
                     started :: valid ++ t1 ++ t2 ++
                       [Log INFO (Successfully_processed id)])
                end
            end
        end
    end.
Proof.
  cbn zeta. set (id := event_identifier e).
  set (started := Log INFO (Processing_event (hex (transactionHash e)))).
  unfold process_lock_event, validate.
  unfold bind at 1. unfold logging at 1, emit at 1.
  unfold bind at 1. rewrite has_processed_eq. fold id.
  destruct (py_in id (_db s)) as [[|]|x]; [done| |done].
  destruct (forallb (has_key (args e)) required_arguments) eqn:Hreq; cbn [negb];
    [|done].
  destruct (required_present _ Hreq) as (sender & token & amount & chain &
    Hsender & Htoken & Hamount & Hchain).
  unfold bind at 1, getitem at 1. rewrite Hamount.
  unfold ret at 1, bind at 1, lift at 1.
  destruct (le_zero amount) as [[|]|x] eqn:Hle.
  - reflexivity.
  - unfold bind, getitem, logging, emit, ret. rewrite Hchain.
    destruct (_simulate_destination_tx (args e) s) as [[[[]|x] s1] t1]; [|done].
    destruct (mark_as_processed id (args e) s1) as [[[[]|x] s2] t2]; [|done].
    reflexivity.
  - destruct amount; cbn in Hle; by inversion Hle.
Qed.


Lemma for_each_event_cons (e : Event) (rest : list Event) (s : Sys) :
  for_each_event (e :: rest) s =
    match process_lock_event e s with
    | (Ret _, s1, t1) =>
        let '(r, s2, t2) := for_each_event rest s1 in (r, s2, t1 ++ t2)
    | (Raise x, s1, t1) => (Raise x, s1, t1)
    end.
Proof. reflexivity. Qed.


(** One turn of the loop with the connection up: the batch, then the
    sleep; when either raises, the error record and the longer sleep,
    whose own exception leaves the handler. *)
Lemma loop_turn_connected (poll_interval : Z) (g : result (list Event)) (s : Sys) :
  loop_turn poll_interval (Connected g) s =
    let backoff x s1 t1 :=
      match sleep_error (poll_interval * 2) with
      | None =>
          (Ret true, set_clock (clock s1 + poll_interval * 2) s1,
           t1 ++ [Log ERROR (Error_in_loop x); Sleep (poll_interval * 2)])
      | Some y => (Raise y, s1, t1 ++ [Log ERROR (Error_in_loop x)])
      end in
    match (match g with
           | Ret [] => (Ret tt, s, [Log INFO No_new_events])
           | Ret events => for_each_event events s
           | Raise x => (Raise x, s, [])
           end) with
    | (Ret _, s1, t1) =>
        match sleep_error poll_interval with
        | None =>
            (Ret true, set_clock (clock s1 + poll_interval) s1,
             t1 ++ [Sleep poll_interval])
        | Some y => backoff y s1 t1
        end
    | (Raise x, s1, t1) => backoff x s1 t1
    end.
Proof.
  cbn zeta.
  unfold loop_turn, try_except, bind, lift, ret, logging, emit.
  destruct g as [[|e rest]|x].
  - rewrite !time_sleep_eq.
    destruct (sleep_error poll_interval); [|done].
    rewrite time_sleep_eq. by destruct (sleep_error (poll_interval * 2)).
  - destruct (for_each_event (e :: rest) s) as [[[[]|x] s1] t1].
    + rewrite !time_sleep_eq.
      destruct (sleep_error poll_interval); [|by rewrite app_nil_r].
      rewrite time_sleep_eq, app_nil_r.
      by destruct (sleep_error (poll_interval * 2)).
    + rewrite time_sleep_eq. by destruct (sleep_error (poll_interval * 2)).
  - rewrite time_sleep_eq. by destruct (sleep_error (poll_interval * 2)).
Qed.


(** Whatever the validation turns down is skipped as well: nothing is
    executed, nothing committed, the state is as before. *)
Lemma rejected_is_skipped (e : Event) (s : Sys) :
  validate (args e) ≠ Valid →
  let r := process_lock_event e s in
  post r = s ∧ simulate_calls (obs r) = 0%nat ∧ mark_calls (obs r) = 0%nat.
Proof.
  intros Hv. cbn zeta. rewrite process_lock_event_eq. cbn zeta.
  destruct (py_in (event_identifier e) (_db s)) as [[|]|x]; [done| |done].
  by destruct (validate (args e)).
Qed.

Lemma missing_required_field (a : gmap string value) :
  forallb (has_key a) required_arguments = false → validate a = MissingField.
Proof. unfold validate. by intros ->. Qed.

(** C5. An event whose amount is an integer not above zero is never
    executed nor committed, and leaves the state as it was.  When it has
    the four required arguments, the validation step yields
    [NonPositiveAmount], and an event not yet processed is reported with
    the "lock amount must be positive" error. *)
Theorem non_positive_amount_is_skipped (e : Event) (amount : Z) :
  args e !! "amount" = Some (VInt amount) → amount <= 0 →
  (forallb (has_key (args e)) required_arguments = true →
     validate (args e) = NonPositiveAmount) ∧
  (∀ s, let r := process_lock_event e s in
        post r = s ∧ simulate_calls (obs r) = 0%nat ∧ mark_calls (obs r) = 0%nat) ∧
  (∀ s, forallb (has_key (args e)) required_arguments = true →
        res (has_processed (event_identifier e) s) = Ret false →
        process_lock_event e s =
          (Ret tt, s,
           [Log INFO (Processing_event (hex (transactionHash e)));
            Log ERROR (Amount_must_be_positive (event_identifier e))])).
Proof.
  intros Hamount Hle.
  assert (Hv : forallb (has_key (args e)) required_arguments = true →
               validate (args e) = NonPositiveAmount).
  { intros Hreq. unfold validate. rewrite Hreq, Hamount. cbn.
    by apply Z.leb_le in Hle as ->. }
  split; [exact Hv|]. split.
  - intros s. apply rejected_is_skipped.
    destruct (forallb (has_key (args e)) required_arguments) eqn:Hreq.
    + by rewrite Hv.
    + by rewrite missing_required_field.
  - intros s Hreq Hnew. rewrite has_processed_eq in Hnew. cbn in Hnew.
    rewrite process_lock_event_eq. cbn zeta. by rewrite Hnew, Hv.
Qed.

Lemma commit_in_one_event (e : Event) (s : Sys) (pre : list Obs)
    (k : string) (d : gmap string value) (suf : list Obs) :
  obs (process_lock_event e s) = pre ++ Call_mark k d :: suf →
  k = event_identifier e ∧ d = args e ∧ In (Return_simulate (args e)) pre.
Proof.
  rewrite process_lock_event_eq. cbn zeta.
  destruct (py_in (event_identifier e) (_db s)) as [[|]|x];
    [by intros E%no_commit| |by intros E%no_commit].
  destruct (validate (args e)); try by intros E%no_commit.
  set (valid := match args e !! "destinationChainId" with
                | Some chain => [Log INFO (Event_valid_simulating chain)]
                | None => []
                end).
  assert (Hvalid : mark_calls valid = 0%nat).
  { subst valid. by destruct (args e !! "destinationChainId"). }
  destruct (simulate_trace (args e) s) as (_ & Hm1 & Hret & _).
  destruct (_simulate_destination_tx (args e) s) as [[[[]|x] s1] t1];
    unfold res, obs in Hm1, Hret; cbn [fst snd] in Hm1, Hret.
  - destruct (mark_trace (event_identifier e) (args e) s1) as (t2 & Ht2 & Hm2 & _).
    assert (Hbefore : mark_calls
              (Log INFO (Processing_event (hex (transactionHash e))) :: valid ++ t1)
            = 0%nat).
    { change (mark_calls (valid ++ t1) = 0%nat). by rewrite mark_calls_app, Hvalid, Hm1. }
    assert (Hin : In (Return_simulate (args e))
              (Log INFO (Processing_event (hex (transactionHash e))) :: valid ++ t1)).
    { right. apply in_or_app. right. by apply Hret. }
    destruct (mark_as_processed (event_identifier e) (args e) s1) as [[[[]|x] s2] t2'];
      unfold obs in Ht2 |- *; cbn [fst snd] in Ht2 |- *; subst t2'; intros E.
    + change (Log INFO (Processing_event (hex (transactionHash e))) ::
                valid ++ t1 ++ (Call_mark (event_identifier e) (args e) :: t2) ++
                [Log INFO (Successfully_processed (event_identifier e))])
        with ((Log INFO (Processing_event (hex (transactionHash e))) :: valid) ++
                t1 ++ Call_mark (event_identifier e) (args e) ::
                (t2 ++ [Log INFO (Successfully_processed (event_identifier e))])) in E.
      rewrite app_assoc in E.
      apply sole_commit in E as (-> & -> & ->); [done|done|].
      by rewrite mark_calls_app, Hm2.
    + change (Log INFO (Processing_event (hex (transactionHash e))) ::
                valid ++ t1 ++ Call_mark (event_identifier e) (args e) :: t2)
        with ((Log INFO (Processing_event (hex (transactionHash e))) :: valid) ++
                t1 ++ Call_mark (event_identifier e) (args e) :: t2) in E.
      rewrite app_assoc in E.
      by apply sole_commit in E as (-> & -> & ->).
  - unfold obs. cbn [fst snd]. intros E. apply no_commit in E; [done|].
    change (mark_calls (valid ++ t1) = 0%nat). by rewrite mark_calls_app, Hvalid, Hm1.
Qed.

Lemma commit_in_batch (events : list Event) (s : Sys) (pre : list Obs)
    (k : string) (d : gmap string value) (suf : list Obs) :
  obs (for_each_event events s) = pre ++ Call_mark k d :: suf →
  In (Return_simulate d) pre.
Proof.
  revert s pre. induction events as [|e rest IH]; intros s pre.
  - cbn. intros E. by destruct pre.
  - rewrite for_each_event_cons.
    pose proof (commit_in_one_event e s) as Hone.
    destruct (process_lock_event e s) as [[[[]|x] s1] t1];
      unfold obs in Hone; cbn [fst snd] in Hone.
    + specialize (IH s1).
      destruct (for_each_event rest s1) as [[r2 s2] t2].
      unfold obs in IH |- *; cbn [fst snd] in IH |- *. intros E.
      apply split_app in E as [(mid & E & _)|(mid & -> & E)].
      * by destruct (Hone _ _ _ _ E) as (_ & -> & ?).
      * apply in_or_app. right. by eapply IH.
    + unfold obs. cbn [fst snd]. intros E.
      by destruct (Hone _ _ _ _ E) as (_ & -> & ?).
Qed.

(** The trace of one turn: that of the batch, then records and sleeps of
    the loop itself. *)
Lemma loop_turn_trace (poll_interval : Z) (p : poll) (s : Sys) :
  ∃ tail,
    obs (loop_turn poll_interval p s) =
      match p with
      | Connected (Ret events) => obs (for_each_event events s)
      | _ => []
      end ++ tail ∧
    simulate_calls tail = 0%nat ∧ mark_calls tail = 0%nat.
Proof.
  destruct p as [|g]; [by eexists|].
  rewrite loop_turn_connected. cbn zeta.
  destruct g as [[|e rest]|x].
  - destruct (sleep_error poll_interval); [|by eexists].
    destruct (sleep_error (poll_interval * 2)); by eexists.
  - destruct (for_each_event (e :: rest) s) as [[[[]|x] s1] t1].
    + destruct (sleep_error poll_interval); [|by eexists].
      destruct (sleep_error (poll_interval * 2)); by eexists.
    + destruct (sleep_error (poll_interval * 2)); by eexists.
  - destruct (sleep_error (poll_interval * 2)); by eexists.
Qed.

Lemma commit_in_turn (poll_interval : Z) (p : poll) (s : Sys) (pre : list Obs)
    (k : string) (d : gmap string value) (suf : list Obs) :
  obs (loop_turn poll_interval p s) = pre ++ Call_mark k d :: suf →
  In (Return_simulate d) pre.
Proof.
  destruct (loop_turn_trace poll_interval p s) as (tail & -> & _ & Hm).
  revert pre k d suf. apply commit_order_app.
  - destruct p as [|[events|x]]; try by intros ???? E%no_commit.
    apply commit_in_batch.
  - by intros ???? E%no_commit.
Qed.

Lemma commit_in_loop (poll_interval : Z) (polls : list poll) (s : Sys)
    (pre : list Obs) (k : string) (d : gmap string value) (suf : list Obs) :
  obs (listening_loop poll_interval polls s) = pre ++ Call_mark k d :: suf →
  In (Return_simulate d) pre.
Proof.
  revert s pre k d suf. induction polls as [|p rest IH]; intros s.
  - by intros ???? E%no_commit.
  - cbn [listening_loop]. unfold bind.
    pose proof (commit_in_turn poll_interval p s) as Hturn.
    destruct (loop_turn poll_interval p s) as [[[[|]|x] s1] t1];
      unfold obs in Hturn; cbn [fst snd] in Hturn.
    + specialize (IH s1). destruct (listening_loop poll_interval rest s1) as [[r2 s2] t2].
      unfold obs in IH |- *. cbn [fst snd] in IH |- *.
      apply commit_order_app; [apply Hturn | apply IH].
    + unfold ret, obs. cbn [fst snd]. rewrite app_nil_r. apply Hturn.
    + unfold obs. cbn [fst snd]. apply Hturn.
Qed.

(** C6. In the trace of [process_lock_event], the entry into
    [mark_as_processed] comes only after the simulation has returned
    normally, and it is for this event; the map and the file differ from
    what they were only if the simulation has returned.  The same order
    holds along a whole batch and along the listening loop. *)
Theorem commit_only_after_execute (e : Event) (s : Sys) :
  let r := process_lock_event e s in
  (∀ pre k d suf,
     obs r = pre ++ Call_mark k d :: suf →
     k = event_identifier e ∧ d = args e ∧ In (Return_simulate (args e)) pre) ∧
  (_db (post r) ≠ _db s ∨ disk (post r) ≠ disk s →
     In (Return_simulate (args e)) (obs r)) ∧
  (∀ events s0 pre k d suf,
     obs (for_each_event events s0) = pre ++ Call_mark k d :: suf →
     In (Return_simulate d) pre) ∧
  (∀ contract_ready filter_created poll_interval polls s0 pre k d suf,
     obs (start_listening contract_ready filter_created poll_interval polls s0) =
       pre ++ Call_mark k d :: suf →
     In (Return_simulate d) pre).
Proof.
  cbn zeta. split; [|split; [|split]].
  - intros pre k d suf. apply commit_in_one_event.
  - rewrite process_lock_event_eq. cbn zeta.
    destruct (py_in (event_identifier e) (_db s)) as [[|]|x];
      [by intros [?|?]| |by intros [?|?]].
    destruct (validate (args e)); try by intros [?|?].
    destruct (simulate_keeps_store (args e) s) as (Hdb & Hdisk & _).
    destruct (simulate_trace (args e) s) as (_ & _ & Hret & _).
    destruct (_simulate_destination_tx (args e) s) as [[[[]|x] s1] t1];
      unfold res, post, obs in Hdb, Hdisk, Hret; cbn [fst snd] in Hdb, Hdisk, Hret.
    + intros _.
      assert (Hin : ∀ tl, In (Return_simulate (args e))
                (Log INFO (Processing_event (hex (transactionHash e))) ::
                 match args e !! "destinationChainId" with
                 | Some chain => [Log INFO (Event_valid_simulating chain)]
                 | None => []
                 end ++ t1 ++ tl)).
      { intros tl. right. apply in_or_app. right. apply in_or_app. left.
        by apply Hret. }
      destruct (mark_as_processed (event_identifier e) (args e) s1)
        as [[[[]|x] s2] t2]; apply Hin.
    + unfold post. cbn [fst snd]. rewrite Hdb, Hdisk. by intros [?|?].
  - intros events s0 pre k d suf. apply commit_in_batch.
  - intros [] [] poll_interval polls s0; try by intros ???? E%no_commit.
    unfold start_listening, bind, logging, emit. cbn [negb].
    pose proof (commit_in_loop poll_interval polls s0) as Hloop.
    destruct (listening_loop poll_interval polls s0) as [[r s1] t].
    unfold obs in Hloop |- *. cbn [fst snd] in Hloop |- *.
    apply (commit_order_app [_] t); [|apply Hloop].
    by intros ???? E%no_commit.
Qed.

Lemma started_one (e : Event) (s : Sys) :
  events_started (obs (process_lock_event e s)) = [hex (transactionHash e)].
Proof.
  rewrite process_lock_event_eq. cbn zeta.
  destruct (py_in (event_identifier e) (_db s)) as [[|]|x]; [done| |done].
  destruct (validate (args e)); try done.
  pose proof (simulate_started (args e) s) as H1.
  destruct (_simulate_destination_tx (args e) s) as [[[[]|x] s1] t1];
    unfold obs in H1; cbn [fst snd] in H1.
  - destruct (mark_trace (event_identifier e) (args e) s1) as (t2 & Ht2 & _ & _ & H2).
    destruct (mark_as_processed (event_identifier e) (args e) s1) as [[[[]|x] s2] t2'];
      unfold obs in Ht2 |- *; cbn [fst snd] in Ht2 |- *; subst t2';
      cbn [events_started]; rewrite !events_started_app, H1; cbn [events_started];
      rewrite ?events_started_app, H2; by destruct (args e !! "destinationChainId").
  - unfold obs. cbn [fst snd events_started].
    rewrite events_started_app, H1. by destruct (args e !! "destinationChainId").
Qed.

(** A batch takes its events up in the order delivered, one after the
    other, as far as it gets. *)
Lemma started_in_order (events : list Event) (s : Sys) :
  ∃ n, events_started (obs (for_each_event events s)) =
         map (fun e => hex (transactionHash e)) (take n events) ∧
       (res (for_each_event events s) = Ret tt → n = List.length events).
Proof.
  revert s. induction events as [|e rest IH]; intros s.
  - by exists 0%nat.
  - rewrite for_each_event_cons. pose proof (started_one e s) as H1.
    destruct (process_lock_event e s) as [[[[]|x] s1] t1];
      unfold obs in H1; cbn [fst snd] in H1.
    + destruct (IH s1) as (n & Hn & Hlen).
      destruct (for_each_event rest s1) as [[r2 s2] t2].
      unfold res, obs in *. cbn [fst snd] in *.
      exists (S n). rewrite events_started_app, H1, Hn. split; [done|].
      intros Hr. cbn. f_equal. by apply Hlen.
    + exists 1%nat. unfold res, obs. cbn [fst snd]. rewrite H1.
      by split.
Qed.

(** C9 (as amended). A batch is drained in the order of the fetched
    sequence, each event in the state the one before it left, up to an
    event whose processing raises.  For each event the replay check comes
    first: an event already processed is skipped with the warning,
    whatever its arguments.  Otherwise the validation decides; for a valid
    event the simulation runs, and only when it has returned is
    [mark_as_processed] called, in the state the simulation left. *)
Theorem draining_order (events : list Event) (s : Sys) :
  (∃ n, events_started (obs (for_each_event events s)) =
          map (fun e => hex (transactionHash e)) (take n events) ∧
        (res (for_each_event events s) = Ret tt → n = List.length events)) ∧
  (∀ e rest s0,
     for_each_event (e :: rest) s0 =
       match process_lock_event e s0 with
       | (Ret _, s1, t1) =>
           let '(r, s2, t2) := for_each_event rest s1 in (r, s2, t1 ++ t2)
       | (Raise x, s1, t1) => (Raise x, s1, t1)
       end) ∧
  ∀ (e : Event) (s' : Sys),
    let id := event_identifier e in
    let started := Log INFO (Processing_event (hex (transactionHash e))) in
    let r := process_lock_event e s' in
    (res (has_processed id s') = Ret true →
       r = (Ret tt, s', [started; Log WARNING (Already_processed_skipping id)])) ∧
    (res (has_processed id s') = Ret false → validate (args e) = MissingField →
       r = (Ret tt, s', [started; Log ERROR (Malformed_event id)])) ∧
    (res (has_processed id s') = Ret false → validate (args e) = NonPositiveAmount →
       r = (Ret tt, s', [started; Log ERROR (Amount_must_be_positive id)])) ∧
    (res (has_processed id s') = Ret false → validate (args e) = Valid →
       let sim := _simulate_destination_tx (args e) s' in
       ∃ chain,
         (∀ x, res sim = Raise x →
            r = (Raise x, post sim,
                 started :: Log INFO (Event_valid_simulating chain) :: obs sim)) ∧
         (res sim = Ret tt →
            let commit := mark_as_processed id (args e) (post sim) in
            ∃ tail,
              r = (res commit, post commit,
                   started :: Log INFO (Event_valid_simulating chain) ::
                     obs sim ++ obs commit ++ tail))).
Proof.
  split; [apply started_in_order|]. split; [apply for_each_event_cons|].
  intros e s'. cbn zeta. rewrite has_processed_eq. unfold res at 1 2 3 4.
  cbn [fst snd]. rewrite process_lock_event_eq. cbn zeta.
  split; [by intros ->|]. split; [by intros -> ->|]. split; [by intros -> ->|].
  intros -> Hv. rewrite Hv.
  assert (∃ chain, args e !! "destinationChainId" = Some chain) as [chain Hchain].
  { unfold validate in Hv.
    destruct (forallb (has_key (args e)) required_arguments) eqn:Hreq; [|done].
    destruct (required_present _ Hreq) as (_ & _ & _ & chain & _ & _ & _ & Hc).
    by exists chain. }
  exists chain. rewrite Hchain.
  destruct (_simulate_destination_tx (args e) s') as [[[[]|x] s1] t1];
    unfold res, post, obs; cbn [fst snd].
  - split; [done|]. intros _.
    destruct (mark_as_processed (event_identifier e) (args e) s1)
      as [[[[]|x] s2] t2]; cbn [fst snd].
    + by exists [Log INFO (Successfully_processed (event_identifier e))].
    + exists []. by rewrite app_nil_r.
  - split; [|done]. by intros ? [= ->].
Qed.

End Processor_properties.

(** ** Concrete runs *)

Lemma has_processed_after_mark_witness :
  res (mark_as_processed (lib:=sample_library) "01-0" (sample_args 50) empty_sys) = Ret tt ∧
  res (has_processed "01-0"
         (run_ops (lib:=sample_library)
            [Mark_as_processed "01-1" (sample_args 75); Reload; Has_processed "01-0"]
            (post (mark_as_processed (lib:=sample_library) "01-0" (sample_args 50)
                     empty_sys)))) = Ret true.
Proof.
  assert (Hret : res (mark_as_processed (lib:=sample_library) "01-0" (sample_args 50)
                        empty_sys) = Ret tt) by (vm_compute; reflexivity).
  split; [exact Hret|].
  apply (has_processed_after_mark (lib:=sample_library) "01-0" (sample_args 50)
           empty_sys Hret).
  - left. reflexivity.
  - apply Forall_nil_2.
Defined.

(** C1 as stated fails: the write of the call is refused, the call returns
    all the same, and a process restarted from the file does not know the
    key. *)
Lemma mark_returns_restart_forgets :
  res (mark_as_processed (lib:=sample_library) "01-0" (sample_args 50) refusing_sys) = Ret tt ∧
  res (has_processed "01-0"
         (run_ops (lib:=sample_library) [Reload]
            (post (mark_as_processed (lib:=sample_library) "01-0" (sample_args 50)
                     refusing_sys)))) = Ret false.
Proof. split; vm_compute; reflexivity. Qed.

Lemma mark_as_processed_twice_witness :
  res (mark_as_processed (lib:=sample_library) "01-0" (sample_args 50) empty_sys) = Ret tt ∧
  mark_as_processed (lib:=sample_library) "01-0" (sample_args 75)
    (set_clock 1700000999
       (post (mark_as_processed (lib:=sample_library) "01-0" (sample_args 50) empty_sys))) =
  (Ret tt,
   set_clock 1700000999
     (post (mark_as_processed (lib:=sample_library) "01-0" (sample_args 50) empty_sys)),
   [Call_mark "01-0" (sample_args 75); Log WARNING (Attempted_to_reprocess "01-0")]).
Proof.
  assert (Hret : res (mark_as_processed (lib:=sample_library) "01-0" (sample_args 50)
                        empty_sys) = Ret tt) by (vm_compute; reflexivity).
  split; [exact Hret|].
  exact (mark_as_processed_twice (lib:=sample_library) "01-0" (sample_args 50)
           (sample_args 75) empty_sys 1700000999 Hret).
Defined.

(** C3 as stated fails: the second call does not end in an error of its
    own, it returns like the first. *)
Lemma second_mark_raises_nothing :
  res (mark_as_processed (lib:=sample_library) "01-0" (sample_args 50) empty_sys) = Ret tt ∧
  res (mark_as_processed (lib:=sample_library) "01-0" (sample_args 50)
         (post (mark_as_processed (lib:=sample_library) "01-0" (sample_args 50)
                  empty_sys))) = Ret tt.
Proof. split; vm_compute; reflexivity. Qed.

Lemma StateDB_init_cold_start_witness :
  (disk empty_sys = Absent ∨ disk empty_sys = Malformed) ∧
  StateDB_init empty_sys =
    (Ret tt, set_db (JDict ∅) empty_sys,
     [Log WARNING Db_not_found_or_invalid; Log INFO StateDB_initialized]).
Proof.
  split; [left; reflexivity|].
  exact (proj1 (StateDB_init_cold_start empty_sys (or_introl eq_refl))).
Defined.

(** C8, at a state file whose contents are not valid JSON because they
    are no text at all (bytes that the encoding of [open] does not
    decode): [json.load] raises [UnicodeDecodeError], which is neither of
    the two exceptions [_load_db] catches, so [StateDB()] raises and no
    empty state is set up. *)
Theorem undecodable_state_file_stops_the_startup :
  disk undecodable_sys = Undecodable ∧
  is_FileNotFound_or_JSONDecode UnicodeDecodeError = false ∧
  res (_load_db undecodable_sys) = Raise UnicodeDecodeError ∧
  StateDB_init undecodable_sys = (Raise UnicodeDecodeError, undecodable_sys, []).
Proof. repeat split; vm_compute; reflexivity. Qed.

Lemma mark_as_processed_swallows_write_failure_witness :
  faults refusing_sys = [OpenRefused] ∧
  res (mark_as_processed (lib:=sample_library) "01-0" (sample_args 50) refusing_sys) = Ret tt ∧
  res (has_processed "01-0"
         (post (mark_as_processed (lib:=sample_library) "01-0" (sample_args 50)
                  refusing_sys))) = Ret true ∧
  res (has_processed_after_restart "01-0"
         (post (mark_as_processed (lib:=sample_library) "01-0" (sample_args 50)
                  refusing_sys))) = Ret false.
Proof.
  split; [reflexivity|].
  assert (Hw : OpenRefused ≠ Written) by discriminate.
  destruct (mark_as_processed_swallows_write_failure (lib:=sample_library)
              "01-0" (sample_args 50) refusing_sys ∅ OpenRefused []
              eq_refl eq_refl eq_refl Hw eq_refl) as (Hr & _ & Hmem & Hfile).
  exact (conj Hr (conj Hmem Hfile)).
Defined.

Lemma failed_write_rewrites_in_place_witness :
  faults committed_sys = [Interrupted] ∧
  disk (post (mark_as_processed (lib:=sample_library) "01-0" (sample_args 50)
                committed_sys)) = Malformed.
Proof.
  split; [reflexivity|].
  assert (Hk : committed_map !! "01-0" = None) by (vm_compute; reflexivity).
  destruct (failed_write_rewrites_in_place (lib:=sample_library)
              "01-0" (sample_args 50) committed_sys committed_map []
              eq_refl Hk) as [_ Hint].
  exact (proj1 (proj2 (Hint eq_refl))).
Defined.

(** C7 as stated fails: a write cut short after [open] leaves the file
    changed, and the record committed earlier is lost to the next
    process. *)
Lemma interrupted_write_loses_the_file :
  disk (post (mark_as_processed (lib:=sample_library) "01-0" (sample_args 50)
                committed_sys)) ≠ disk committed_sys ∧
  res (has_processed_after_restart "aa-0" committed_sys) = Ret true ∧
  res (has_processed_after_restart "aa-0"
         (post (mark_as_processed (lib:=sample_library) "01-0" (sample_args 50)
                  committed_sys))) = Ret false.
Proof.
  split; [|split; vm_compute; reflexivity].
  intros E. vm_compute in E. discriminate E.
Qed.

(** The batch of two events of one transaction, on a fresh state store:
    log index 0 is relayed and committed before log index 1, and both are
    known afterwards. *)
Lemma two_events_in_ledger_order :
  loop_turn (lib:=sample_library) 10 (Connected (Ret two_events)) empty_sys =
    (Ret true,
     set_clock 1700000012 relayed_two_sys,
     [Log INFO (Processing_event "01");
      Log INFO (Event_valid_simulating (VInt 2));
      Call_simulate (sample_args 50);
      Log INFO (Sim_creating "0x00000000000000000000000000000000000000a1"
                  (VBytes [Byte.xc3]) (VInt 50)
                  (VStr "0x00000000000000000000000000000000000000b2")
                  "0x_placeho...");
      Sleep 1;
      Log INFO (Sim_confirmed (VInt 50));
      Return_simulate (sample_args 50);
      Call_mark "01-0" (sample_args 50);
      Log INFO (Marked_as_processed "01-0");
      Log INFO (Successfully_processed "01-0");
      Log INFO (Processing_event "01");
      Log INFO (Event_valid_simulating (VInt 2));
      Call_simulate (sample_args 75);
      Log INFO (Sim_creating "0x00000000000000000000000000000000000000a1"
                  (VBytes [Byte.xc3]) (VInt 75)
                  (VStr "0x00000000000000000000000000000000000000b2")
                  "0x_placeho...");
      Sleep 1;
      Log INFO (Sim_confirmed (VInt 75));
      Return_simulate (sample_args 75);
      Call_mark "01-1" (sample_args 75);
      Log INFO (Marked_as_processed "01-1");
      Log INFO (Successfully_processed "01-1");
      Sleep 10]) ∧
  res (has_processed "01-0" relayed_two_sys) = Ret true ∧
  res (has_processed "01-1" relayed_two_sys) = Ret true ∧
  disk relayed_two_sys = Document (_db relayed_two_sys).
Proof. repeat split; vm_compute; reflexivity. Qed.


(** C4, at an event that lacks only [recipient]: the validation lets it
    through, the simulation is entered and raises [KeyError], nothing is
    committed. *)
Theorem missing_recipient_reaches_the_simulation :
  args no_recipient_event !! "recipient" = None ∧
  validate (args no_recipient_event) = Valid ∧
  let r := process_lock_event (lib:=sample_library) no_recipient_event empty_sys in
  res r = Raise (KeyError "recipient") ∧
  simulate_calls (obs r) = 1%nat ∧ mark_calls (obs r) = 0%nat.
Proof. repeat split; vm_compute; reflexivity. Qed.

(** The exception leaves [process_lock_event] and ends the batch: the
    event delivered after it is not taken up. *)
Lemma raising_event_ends_the_batch :
  let r := loop_turn (lib:=sample_library) 10
             (Connected (Ret [no_recipient_event; sample_event 1 75])) empty_sys in
  res r = Ret true ∧
  events_started (obs r) = ["01"] ∧
  In (Log ERROR (Error_in_loop (KeyError "recipient"))) (obs r) ∧
  res (has_processed "01-1" (post r)) = Ret false.
Proof.
  repeat split; try (vm_compute; reflexivity).
  vm_compute. do 3 right. by left.
Qed.

Lemma non_positive_amount_is_skipped_witness :
  args (sample_event 0 0) !! "amount" = Some (VInt 0) ∧
  validate (args (sample_event 0 0)) = NonPositiveAmount ∧
  simulate_calls
    (obs (process_lock_event (lib:=sample_library) (sample_event 0 0) empty_sys)) = 0%nat.
Proof.
  assert (Hamount : args (sample_event 0 0) !! "amount" = Some (VInt 0))
    by (vm_compute; reflexivity).
  assert (Hle : 0 <= 0) by lia.
  destruct (non_positive_amount_is_skipped (lib:=sample_library)
              (sample_event 0 0) 0 Hamount Hle) as (Hv & Hskip & _).
  split; [exact Hamount|]. split.
  - apply Hv. vm_compute. reflexivity.
  - exact (proj1 (proj2 (Hskip empty_sys))).
Defined.

(** The presence check comes before the amount check: an event with
    amount zero that also lacks [sender] is turned down as malformed, as
    an event with a missing argument is to be. *)
Lemma zero_amount_reported_as_malformed :
  args zero_amount_no_sender_event !! "amount" = Some (VInt 0) ∧
  validate (args zero_amount_no_sender_event) = MissingField ∧
  process_lock_event (lib:=sample_library) zero_amount_no_sender_event empty_sys =
    (Ret tt, empty_sys,
     [Log INFO (Processing_event "01"); Log ERROR (Malformed_event "01-0")]).
Proof. repeat split; vm_compute; reflexivity. Qed.

Lemma commit_only_after_execute_witness :
  ∃ pre suf,
    obs (process_lock_event (lib:=sample_library) (sample_event 0 50) empty_sys) =
      pre ++ Call_mark "01-0" (sample_args 50) :: suf ∧
    In (Return_simulate (sample_args 50)) pre.
Proof.
  eexists (firstn 7 (obs (process_lock_event (lib:=sample_library)
                            (sample_event 0 50) empty_sys))).
  eexists (skipn 8 (obs (process_lock_event (lib:=sample_library)
                           (sample_event 0 50) empty_sys))).
  assert (E : obs (process_lock_event (lib:=sample_library) (sample_event 0 50) empty_sys) =
              firstn 7 (obs (process_lock_event (lib:=sample_library)
                               (sample_event 0 50) empty_sys)) ++
              Call_mark "01-0" (sample_args 50) ::
              skipn 8 (obs (process_lock_event (lib:=sample_library)
                              (sample_event 0 50) empty_sys)))
    by (vm_compute; reflexivity).
  split; [exact E|].
  exact (proj2 (proj2 (proj1 (commit_only_after_execute (lib:=sample_library)
                                (sample_event 0 50) empty_sys) _ _ _ _ E))).
Defined.

Lemma draining_order_witness :
  res (has_processed (event_identifier redelivered_without_token) relayed_sys) = Ret true ∧
  process_lock_event (lib:=sample_library) redelivered_without_token relayed_sys =
    (Ret tt, relayed_sys,
     [Log INFO (Processing_event (hex (transactionHash redelivered_without_token)));
      Log WARNING (Already_processed_skipping
                     (event_identifier redelivered_without_token))]).
Proof.
  assert (Hseen : res (has_processed (event_identifier redelivered_without_token)
                         relayed_sys) = Ret true) by (vm_compute; reflexivity).
  split; [exact Hseen|].
  exact (proj1 (proj2 (proj2 (draining_order (lib:=sample_library) [] empty_sys))
                  redelivered_without_token relayed_sys) Hseen).
Defined.

(** C9 as stated fails: with validation first, an event already processed
    that comes again without its [token] would be reported as malformed;
    the code checks for the replay first and reports it as already
    processed. *)
Lemma replay_check_precedes_validation :
  validate (args redelivered_without_token) = MissingField ∧
  obs (process_lock_event_validate_first (lib:=sample_library)
         redelivered_without_token relayed_sys) =
    [Log INFO (Processing_event "01"); Log ERROR (Malformed_event "01-0")] ∧
  obs (process_lock_event (lib:=sample_library) redelivered_without_token relayed_sys) =
    [Log INFO (Processing_event "01");
     Log WARNING (Already_processed_skipping "01-0")].
Proof. repeat split; vm_compute; reflexivity. Qed.

(** * Further properties *)

(** ** What a call can do to the map *)

Section Map_growth.
Context `{lib : Library}.

(** [mark_as_processed] leaves the map as it is or adds the one record. *)
Lemma mark_db_cases (k : string) (d : gmap string value) (s : Sys) :
  _db (post (mark_as_processed k d s)) = _db s ∨
  ∃ m, _db s = JDict m ∧ m !! k = None ∧
       _db (post (mark_as_processed k d s)) =
         JDict (<[k := processed_record (clock s) d]> m).
Proof.
  destruct (mark_cases k d s) as [[_ E]|[[e E]|(m & Hdb & Hk & E)]]; rewrite E.
  - by left.
  - by left.
  - right. exists m. split; [done|]. split; [done|].
    cbn zeta. unfold post. cbn [fst snd].
    fold (post (_save_db (set_db (JDict (<[k:=processed_record (clock s) d]> m)) s))).
    by rewrite _save_db_keeps_db.
Qed.

Lemma mark_faults (k : string) (d : gmap string value) (s : Sys) :
  faults (post (mark_as_processed k d s)) = faults s ∨
  faults (post (mark_as_processed k d s)) = tail (faults s).
Proof.
  destruct (mark_cases k d s) as [[_ E]|[[e E]|(m & Hdb & Hk & E)]]; rewrite E.
  - by left.
  - by left.
  - right. cbn zeta. unfold post. cbn [fst snd]. rewrite _save_db_eq. cbn.
    by destruct (faults s) as [|[] ?].
Qed.

(** X1. [mark_as_processed(k, data)] never touches another key: for every
    other key [has_processed] answers as before.  When the map is a [dict]
    without [k], the map afterwards has under [k] the record with the time
    of the call and [str(data)], every other record is as it was, and this
    is so whether the write to the file succeeds or not. *)
Theorem mark_as_processed_inserts_one_record
    (k : string) (d : gmap string value) (s : Sys) :
  (∀ k', k' ≠ k →
     py_in k' (_db (post (mark_as_processed k d s))) = py_in k' (_db s)) ∧
  (∀ m, _db s = JDict m → m !! k = None →
     ∃ m', _db (post (mark_as_processed k d s)) = JDict m' ∧
           m' !! k = Some (JDict (<["timestamp" := JInt (clock s)]>
                                 (<["event_data" := JStr (py_str d)]> ∅))) ∧
           ∀ k', k' ≠ k → m' !! k' = m !! k').
Proof.
  split.
  - intros k' Hne.
    destruct (mark_db_cases k d s) as [->|(m & Hdb & _ & ->)]; [done|].
    rewrite Hdb, !py_in_dict. by rewrite lookup_insert_ne.
  - intros m Hdb Hk.
    destruct (mark_db_cases k d s) as [E|(m0 & Hdb0 & _ & E)].
    + exfalso.
      destruct (mark_cases k d s) as [[Hin _]|[[e E']|(m1 & _ & _ & E')]].
      * rewrite Hdb in Hin. apply py_in_dict_None in Hk. congruence.
      * assert (E'' := mark_fresh k d s m Hdb Hk). cbn zeta in E''. congruence.
      * rewrite E' in E. cbn zeta in E. unfold post in E. cbn [fst snd] in E.
        fold (post (_save_db (set_db (JDict (<[k:=processed_record (clock s) d]> m1)) s)))
          in E.
        rewrite _save_db_keeps_db in E. cbn in E. rewrite Hdb in E.
        injection E as E. apply (f_equal (fun x => x !! k)) in E.
        rewrite lookup_insert_eq in E. congruence.
    + rewrite Hdb in Hdb0. injection Hdb0 as <-. eexists. split; [exact E|].
      split; [by rewrite lookup_insert_eq|].
      intros k' Hne. by rewrite lookup_insert_ne.
Qed.

End Map_growth.

(** ** Delivering events again *)

Section Redelivery.
Context `{lib : Library}.

Lemma process_db_cases (e : Event) (s : Sys) :
  _db (post (process_lock_event e s)) = _db s ∨
  ∃ m record, _db s = JDict m ∧ m !! event_identifier e = None ∧
              _db (post (process_lock_event e s)) =
                JDict (<[event_identifier e := record]> m).
Proof.
  rewrite process_lock_event_eq. cbn zeta.
  destruct (py_in (event_identifier e) (_db s)) as [[|]|x]; [by left| |by left].
  destruct (validate (args e)); try by left.
  destruct (simulate_keeps_store (args e) s) as (Hdb & _ & _).
  destruct (_simulate_destination_tx (args e) s) as [[[[]|x] s1] t1];
    unfold post in Hdb; cbn [fst snd] in Hdb; [|by left].
  pose proof (mark_db_cases (event_identifier e) (args e) s1) as Hmark.
  destruct (mark_as_processed (event_identifier e) (args e) s1) as [[[[]|x] s2] t2];
    unfold post in Hmark |- *; cbn [fst snd] in Hmark |- *; rewrite Hdb in Hmark;
    (destruct Hmark as [->|(m & ? & ? & ->)];
     [by left|right; exists m; eexists; done]).
Qed.

(** X2. [process_lock_event] never removes or overwrites a record: the map
    afterwards is the map before, or the map before with one record added
    under the identifier of the event, which was not there. *)
Theorem process_lock_event_only_adds_own_key (e : Event) (s : Sys) :
  let s' := post (process_lock_event e s) in
  _db s' = _db s ∨
  ∃ m record, _db s = JDict m ∧ m !! event_identifier e = None ∧
              _db s' = JDict (<[event_identifier e := record]> m).
Proof. apply process_db_cases. Qed.

(** A key that is known stays known, one that is answered stays answered. *)
Lemma process_keeps_known (k : string) (e : Event) (s : Sys) :
  py_in k (_db s) = Ret true →
  py_in k (_db (post (process_lock_event e s))) = Ret true.
Proof.
  intros Hk. destruct (process_db_cases e s) as [->|(m & v & Hdb & _ & ->)]; [done|].
  apply py_in_insert. left. by rewrite <- Hdb.
Qed.

Lemma process_keeps_answering (k : string) (e : Event) (s : Sys) (b : bool) :
  py_in k (_db s) = Ret b →
  ∃ b', py_in k (_db (post (process_lock_event e s))) = Ret b'.
Proof.
  intros Hk. destruct (process_db_cases e s) as [->|(m & v & Hdb & _ & ->)].
  - by exists b.
  - eexists. apply py_in_dict.
Qed.

Lemma settled_after (e : Event) (s : Sys) :
  res (process_lock_event e s) = Ret tt →
  settled e (post (process_lock_event e s)).
Proof.
  rewrite process_lock_event_eq. cbn zeta. unfold settled.
  destruct (py_in (event_identifier e) (_db s)) as [[|]|x] eqn:Hin;
    [by left| |done].
  destruct (validate (args e)) eqn:Hv; try done.
  - destruct (simulate_keeps_store (args e) s) as (Hdb & _ & _).
    destruct (_simulate_destination_tx (args e) s) as [[[[]|x] s1] t1];
      unfold post in Hdb; cbn [fst snd] in Hdb; [|done].
    pose proof (mark_returns_known (event_identifier e) (args e) s1) as Hk.
    destruct (mark_as_processed (event_identifier e) (args e) s1) as [[[[]|x] s2] t2];
      unfold res, post in Hk |- *; cbn [fst snd] in Hk |- *; [|done].
    intros _. left. by apply Hk.
  - intros _. right. split; [done|by left].
  - intros _. right. split; [done|by right].
Qed.

Lemma settled_kept (e e' : Event) (s : Sys) :
  settled e s → settled e (post (process_lock_event e' s)).
Proof.
  intros [Hk|[Hk Hv]].
  - left. by apply process_keeps_known.
  - destruct (process_keeps_answering _ e' s _ Hk) as [[|] Hb].
    + by left.
    + by right.
Qed.

Lemma settled_kept_batch (e : Event) (events : list Event) (s : Sys) :
  settled e s → settled e (post (for_each_event events s)).
Proof.
  revert s. induction events as [|e' rest IH]; intros s Hs; [done|].
  rewrite for_each_event_cons.
  pose proof (settled_kept e e' s Hs) as H1.
  destruct (process_lock_event e' s) as [[[[]|x] s1] t1];
    unfold post in H1 |- *; cbn [fst snd] in H1 |- *; [|done].
  specialize (IH s1 H1).
  destruct (for_each_event rest s1) as [[r2 s2] t2]. by unfold post in IH.
Qed.

(** A settled event is passed over: nothing executed, nothing committed,
    the state as before. *)
Lemma settled_skipped (e : Event) (s : Sys) :
  settled e s →
  let r := process_lock_event e s in
  res r = Ret tt ∧ post r = s ∧
  simulate_calls (obs r) = 0%nat ∧ mark_calls (obs r) = 0%nat.
Proof.
  cbn zeta. rewrite process_lock_event_eq. cbn zeta.
  by intros [->|[-> [->| ->]]].
Qed.

Lemma settled_batch_skipped (events : list Event) (s : Sys) :
  Forall (fun e => settled e s) events →
  let r := for_each_event events s in
  res r = Ret tt ∧ post r = s ∧
  simulate_calls (obs r) = 0%nat ∧ mark_calls (obs r) = 0%nat.
Proof.
  induction events as [|e rest IH]; intros Hall; [done|].
  apply Forall_cons in Hall as [He Hrest].
  rewrite for_each_event_cons.
  destruct (settled_skipped e s He) as (Hr1 & Hp1 & Hs1 & Hm1).
  destruct (process_lock_event e s) as [[r1 s1] t1].
  unfold res, post, obs in Hr1, Hp1, Hs1, Hm1. cbn [fst snd] in Hr1, Hp1, Hs1, Hm1.
  subst r1 s1.
  destruct (IH Hrest) as (Hr & Hp & Hs & Hm).
  destruct (for_each_event rest s) as [[r s2] t2].
  unfold res, post, obs in *. cbn [fst snd] in *. subst r s2.
  by rewrite simulate_calls_app, mark_calls_app, Hs1, Hm1, Hs, Hm.
Qed.

Lemma drained_is_settled (events : list Event) (s : Sys) :
  res (for_each_event events s) = Ret tt →
  Forall (fun e => settled e (post (for_each_event events s))) events.
Proof.
  revert s. induction events as [|e rest IH]; intros s; [by constructor|].
  rewrite for_each_event_cons.
  pose proof (settled_after e s) as H1.
  destruct (process_lock_event e s) as [[[[]|x] s1] t1];
    unfold res, post in H1 |- *; cbn [fst snd] in H1 |- *; [|done].
  specialize (IH s1). pose proof (settled_kept_batch e rest s1 (H1 eq_refl)) as H2.
  destruct (for_each_event rest s1) as [[r2 s2] t2].
  unfold res, post in IH, H2 |- *. cbn [fst snd] in IH, H2 |- *.
  intros Hr. apply Forall_cons_2; [done|by apply IH].
Qed.

(** X3. A batch that was drained without an exception, delivered again to
    the same process, has no effect: no event of it is executed or
    committed a second time, and the state stays as it is.  This holds
    whatever the batch contains (valid, malformed, repeated events) and
    whether or not the writes to the file succeeded. *)
Theorem drained_batch_is_not_executed_again (events : list Event) (s : Sys) :
  res (for_each_event events s) = Ret tt →
  let s' := post (for_each_event events s) in
  let again := for_each_event events s' in
  res again = Ret tt ∧ post again = s' ∧
  simulate_calls (obs again) = 0%nat ∧ mark_calls (obs again) = 0%nat.
Proof.
  intros Hr. cbn zeta. apply settled_batch_skipped. by apply drained_is_settled.
Qed.

End Redelivery.

(** ** Restarts *)

Section Restarts.
Context `{lib : Library}.

Lemma in_step_init (s : Sys) :
  res (StateDB_init s) = Ret tt → in_step (post (StateDB_init s)).
Proof.
  rewrite StateDB_init_eq. unfold in_step.
  destruct (disk s) eqn:Hd; cbn; rewrite ?Hd; try done.
  - intros _. right. split; [by left|done].
  - intros _. right. split; [by right|done].
  - intros _. by left.
Qed.

Lemma in_step_reload (s : Sys) :
  in_step s → res (StateDB_init s) = Ret tt ∧ post (StateDB_init s) = s.
Proof.
  rewrite StateDB_init_eq.
  intros [Hd|[[Hd|Hd] Hdb]]; rewrite Hd; cbn; rewrite <- ?Hdb;
    by rewrite set_db_same.
Qed.

Lemma in_step_mark (k : string) (d : gmap string value) (s : Sys) :
  in_step s → writes_succeed s →
  in_step (post (mark_as_processed k d s)) ∧
  writes_succeed (post (mark_as_processed k d s)).
Proof.
  intros Hi Hw.
  destruct (mark_cases k d s) as [[_ E]|[[e E]|(m & Hdb & Hk & E)]]; rewrite E;
    [done|done|].
  cbn zeta. set (s1 := set_db _ s). unfold post. cbn [fst snd].
  rewrite (_save_db_succeeds s1) by done. cbn [fst snd].
  split; [by left|by eapply writes_succeed_tail].
Qed.

Lemma in_step_process (e : Event) (s : Sys) :
  in_step s → writes_succeed s →
  in_step (post (process_lock_event e s)) ∧
  writes_succeed (post (process_lock_event e s)).
Proof.
  intros Hi Hw. rewrite process_lock_event_eq. cbn zeta.
  destruct (py_in (event_identifier e) (_db s)) as [[|]|x]; [done| |done].
  destruct (validate (args e)); try done.
  destruct (simulate_keeps_store (args e) s) as (Hdb & Hdisk & Hf).
  assert (in_step (post (_simulate_destination_tx (args e) s)) ∧
          writes_succeed (post (_simulate_destination_tx (args e) s))) as [Hi1 Hw1].
  { unfold in_step, writes_succeed in *. by rewrite Hdb, Hdisk, Hf. }
  destruct (_simulate_destination_tx (args e) s) as [[[[]|x] s1] t1];
    unfold post in Hi1, Hw1 |- *; cbn [fst snd] in Hi1, Hw1 |- *; [|done].
  pose proof (in_step_mark (event_identifier e) (args e) s1 Hi1 Hw1) as Hm.
  by destruct (mark_as_processed (event_identifier e) (args e) s1) as [[[[]|x] s2] t2].
Qed.

Lemma in_step_batch (events : list Event) (s : Sys) :
  in_step s → writes_succeed s →
  in_step (post (for_each_event events s)).
Proof.
  revert s. induction events as [|e rest IH]; intros s Hi Hw; [done|].
  rewrite for_each_event_cons.
  destruct (in_step_process e s Hi Hw) as [Hi1 Hw1].
  destruct (process_lock_event e s) as [[[[]|x] s1] t1];
    unfold post in Hi1, Hw1 |- *; cbn [fst snd] in Hi1, Hw1 |- *; [|done].
  specialize (IH s1 Hi1 Hw1).
  destruct (for_each_event rest s1) as [[r2 s2] t2]. by unfold post in IH.
Qed.

(** X4. Exactly once across a restart, when the writes succeed: after a
    [StateDB] has been built and a batch drained without an exception, a
    restarted process rebuilds the same state from the file, and the same
    batch delivered to it is neither executed nor committed again. *)
Theorem drained_batch_is_not_executed_after_restart
    (events : list Event) (s0 : Sys) :
  writes_succeed s0 →
  res (StateDB_init s0) = Ret tt →
  res (for_each_event events (post (StateDB_init s0))) = Ret tt →
  let s' := post (for_each_event events (post (StateDB_init s0))) in
  res (StateDB_init s') = Ret tt ∧
  post (StateDB_init s') = s' ∧
  let again := for_each_event events (post (StateDB_init s')) in
  res again = Ret tt ∧
  simulate_calls (obs again) = 0%nat ∧ mark_calls (obs again) = 0%nat.
Proof.
  intros Hw Hinit Hdrain. cbn zeta.
  assert (Hi : in_step (post (for_each_event events (post (StateDB_init s0))))).
  { apply in_step_batch; [by apply in_step_init|].
    unfold writes_succeed in *. revert Hw. rewrite StateDB_init_eq.
    by destruct (disk s0). }
  destruct (in_step_reload _ Hi) as [Hr Hp]. split; [done|]. split; [done|].
  rewrite Hp.
  destruct (settled_batch_skipped events _ (drained_is_settled events _ Hdrain))
    as (? & _ & ? & ?).
  done.
Qed.

Lemma file_knows_restart (k : string) (s : Sys) :
  res (has_processed_after_restart k s) = Ret true ↔ file_knows k s.
Proof.
  unfold has_processed_after_restart, bind, file_knows.
  rewrite StateDB_init_eq.
  destruct (disk s) as [| | | |v]; cbn; split; try done;
    try (by intros (? & ? & ?)).
  - intros Hin. exists v. split; [done|]. by destruct (py_in k v).
  - intros (v' & [= <-] & ->). done.
Qed.

Lemma behind_init (s : Sys) (k : string) :
  res (StateDB_init s) = Ret tt →
  file_knows k (post (StateDB_init s)) →
  py_in k (_db (post (StateDB_init s))) = Ret true.
Proof.
  unfold file_knows. rewrite StateDB_init_eq.
  destruct (disk s) as [| | | |v] eqn:Hd; cbn; rewrite ?Hd; try done;
    try (by intros _ (? & ? & ?)).
  by intros _ (v' & [= <-] & ?).
Qed.

Lemma behind_step (o : op) (s : Sys) :
  (∀ k, file_knows k s → py_in k (_db s) = Ret true) →
  ∀ k, file_knows k (post (run_op o s)) →
       py_in k (_db (post (run_op o s))) = Ret true.
Proof.
  intros HJ k. destruct o as [k'|k' d|].
  - rewrite run_op_has_state. apply HJ.
  - cbn [run_op].
    destruct (mark_cases k' d s) as [[_ E]|[[e E]|(m & Hdb & Hk & E)]]; rewrite E;
      [apply HJ|apply HJ|].
    cbn zeta. set (s1 := set_db _ s). unfold post, file_knows. cbn [fst snd].
    rewrite _save_db_eq.
    assert (Hf : faults s1 = faults s) by done. rewrite Hf.
    destruct (faults s) as [|[] rest]; cbn.
    + by intros (v & [= <-] & ?).
    + by intros (v & [= <-] & ?).
    + intros Hfile. apply py_in_insert. left. rewrite <- Hdb. by apply HJ.
    + by intros (v & ? & ?).
  - cbn [run_op]. unfold file_knows in *. rewrite StateDB_init_eq.
    destruct (disk s) as [| | | |v] eqn:Hd; cbn; rewrite ?Hd;
      try (by intros (? & ? & ?)).
    by intros (v' & [= <-] & ?).
Qed.

(** X5. The file never knows more than the process: from the moment a
    [StateDB] is built, whatever sequence of [has_processed],
    [mark_as_processed] and restarts follows and whichever writes fail,
    a key that a restart would find in the file is a key the running
    process has.  A failed write can make a restart forget an event; no
    restart makes an event look processed that the process did not mark. *)
Theorem file_never_ahead_of_memory (ops : list op) (s0 : Sys) (k : string) :
  res (StateDB_init s0) = Ret tt →
  let s := run_ops ops (post (StateDB_init s0)) in
  res (has_processed_after_restart k s) = Ret true →
  res (has_processed k s) = Ret true.
Proof.
  intros Hinit s. rewrite file_knows_restart, has_processed_eq. cbn.
  subst s. generalize k. clear k.
  assert (HJ : ∀ k, file_knows k (post (StateDB_init s0)) →
                    py_in k (_db (post (StateDB_init s0))) = Ret true)
    by (intros k; by apply behind_init).
  revert HJ. generalize (post (StateDB_init s0)). clear Hinit.
  induction ops as [|o ops IH]; intros s HJ; [done|].
  cbn. apply IH. by apply behind_step.
Qed.

End Restarts.

(** ** A state file that is valid JSON but not an object *)

Section Odd_state.
Context `{lib : Library}.

Lemma simulate_calls_log (lv : level) (m : msg) (tr : list Obs) :
  simulate_calls (Log lv m :: tr) = simulate_calls tr.
Proof. reflexivity. Qed.

Lemma simulate_calls_mark (k : string) (d : gmap string value) (tr : list Obs) :
  simulate_calls (Call_mark k d :: tr) = simulate_calls tr.
Proof. reflexivity. Qed.

(** How often the simulation is entered depends on the map and on the
    arguments only. *)
Lemma simulate_calls_process (e : Event) (s : Sys) :
  simulate_calls (obs (process_lock_event e s)) =
    match py_in (event_identifier e) (_db s), validate (args e) with
    | Ret false, Valid => 1%nat
    | _, _ => 0%nat
    end.
Proof.
  rewrite process_lock_event_eq. cbn zeta.
  destruct (py_in (event_identifier e) (_db s)) as [[|]|x]; [done| |done].
  destruct (validate (args e)); try done.
  destruct (simulate_trace (args e) s) as (Hs1 & _ & _ & _).
  destruct (_simulate_destination_tx (args e) s) as [[[[]|x] s1] t1];
    unfold obs in Hs1 |- *; cbn [fst snd] in Hs1 |- *.
  - destruct (mark_trace (event_identifier e) (args e) s1) as (t & Ht & _ & Hs2 & _).
    destruct (mark_as_processed (event_identifier e) (args e) s1) as [[[[]|x] s2] t2];
      unfold obs in Ht; cbn [fst snd] in Ht |- *; subst t2;
      rewrite simulate_calls_log, !simulate_calls_app, Hs1, ?simulate_calls_app,
        simulate_calls_mark, Hs2;
      by destruct (args e !! "destinationChainId").
  - rewrite simulate_calls_log, simulate_calls_app, Hs1.
    by destruct (args e !! "destinationChainId").
Qed.

(** X6. When the map is not a [dict] (the state file held a JSON array or
    string, which [StateDB] accepts), [process_lock_event] records
    nothing: map and file stay as they are.  An event for which the
    simulation returned ends in the [TypeError] of the item assignment,
    and the same event delivered again is simulated as often as the first
    time: the replay protection is out of action. *)
Theorem non_object_state_records_nothing (e : Event) (s : Sys) :
  (∀ m, _db s ≠ JDict m) →
  let r := process_lock_event e s in
  _db (post r) = _db s ∧ disk (post r) = disk s ∧
  (In (Return_simulate (args e)) (obs r) → res r = Raise TypeError) ∧
  simulate_calls (obs (process_lock_event e (post r))) = simulate_calls (obs r).
Proof.
  intros Hnd. cbn zeta.
  assert (Hdb : _db (post (process_lock_event e s)) = _db s).
  { destruct (process_db_cases e s) as [->|(m & ? & Hm & _)]; [done|].
    by destruct (Hnd m). }
  split; [done|]. split; [|split].
  - rewrite process_lock_event_eq. cbn zeta.
    destruct (py_in (event_identifier e) (_db s)) as [[|]|x] eqn:Hin; try done.
    destruct (validate (args e)); try done.
    destruct (simulate_keeps_store (args e) s) as (Hdb1 & Hdisk1 & _).
    destruct (_simulate_destination_tx (args e) s) as [[[[]|x] s1] t1];
      unfold post in Hdb1, Hdisk1 |- *; cbn [fst snd] in Hdb1, Hdisk1 |- *; [|done].
    rewrite (mark_not_a_dict (event_identifier e) (args e) s1);
      [done|by rewrite Hdb1|by rewrite Hdb1].
  - rewrite process_lock_event_eq. cbn zeta.
    destruct (py_in (event_identifier e) (_db s)) as [[|]|x] eqn:Hin;
      try (by intros [?|[?|[]]]); try (by intros [?|[]]).
    destruct (validate (args e)); try (by intros [?|[?|[]]]); try (by intros [?|[]]).
    destruct (simulate_keeps_store (args e) s) as (Hdb1 & _ & _).
    destruct (simulate_trace (args e) s) as (_ & _ & _ & Hno).
    destruct (_simulate_destination_tx (args e) s) as [[[[]|x] s1] t1];
      unfold res, post, obs in Hdb1, Hno |- *; cbn [fst snd] in Hdb1, Hno |- *.
    + rewrite (mark_not_a_dict (event_identifier e) (args e) s1);
        [done|by rewrite Hdb1|by rewrite Hdb1].
    + intros [?|Hin']; [done|]. exfalso. apply (Hno x eq_refl).
      apply in_app_or in Hin' as [Hin'|Hin']; [|done].
      by destruct (args e !! "destinationChainId"); [destruct Hin' as [?|[]]|].
  - by rewrite !simulate_calls_process, Hdb.
Qed.


End Odd_state.

(** ** Batches and the loop *)

Section Batches.
Context `{lib : Library}.

Lemma for_each_event_app (a b : list Event) (s : Sys) :
  for_each_event (a ++ b) s =
    match for_each_event a s with
    | (Ret _, s1, t1) =>
        let '(r, s2, t2) := for_each_event b s1 in (r, s2, t1 ++ t2)
    | (Raise x, s1, t1) => (Raise x, s1, t1)
    end.
Proof.
  revert s. induction a as [|e a IH]; intros s.
  - cbn. by destruct (for_each_event b s) as [[r s2] t2].
  - cbn [app]. rewrite !for_each_event_cons.
    destruct (process_lock_event e s) as [[[[]|x] s1] t1]; [|done].
    rewrite IH. destruct (for_each_event a s1) as [[[[]|x] s2] t2]; [|done].
    destruct (for_each_event b s2) as [[r s3] t3]. by rewrite app_assoc.
Qed.

(** X8. The [for] loop over a fetched batch composes: when draining [a]
    raises nothing, draining [a ++ b] in one go gives the result, the
    state and the trace of draining [a] and then, in the state that left,
    [b]. *)
Theorem batches_compose (a b : list Event) (s : Sys) :
  res (for_each_event a s) = Ret tt →
  res (for_each_event (a ++ b) s) = res (for_each_event b (post (for_each_event a s))) ∧
  post (for_each_event (a ++ b) s) = post (for_each_event b (post (for_each_event a s))) ∧
  obs (for_each_event (a ++ b) s) =
    obs (for_each_event a s) ++ obs (for_each_event b (post (for_each_event a s))).
Proof.
  rewrite for_each_event_app.
  destruct (for_each_event a s) as [[[[]|x] s1] t1]; [|done]. intros _.
  unfold res, post, obs. cbn [fst snd].
  by destruct (for_each_event b s1) as [[r s2] t2].
Qed.


Lemma loop_turn_disconnected (poll_interval : Z) (s : Sys) :
  loop_turn poll_interval Disconnected s = (Ret false, s, [Log ERROR Connection_lost]).
Proof. reflexivity. Qed.

(** With the connection up a turn never breaks the loop: it goes on or
    it raises. *)
Lemma loop_turn_no_break (poll_interval : Z) (g : result (list Event)) (s : Sys) :
  res (loop_turn poll_interval (Connected g) s) ≠ Ret false.
Proof.
  rewrite loop_turn_connected. cbn zeta.
  destruct g as [[|e rest]|x];
    [|destruct (for_each_event (e :: rest) s) as [[[[]|x] s1] t1]|];
    destruct (sleep_error poll_interval), (sleep_error (poll_interval * 2));
    unfold res; cbn; discriminate.
Qed.

Lemma loop_turn_returns (poll_interval : Z) (p : poll) (s : Sys) :
  0 <= poll_interval → poll_interval * 2 <= sleep_max →
  res (loop_turn poll_interval p s) =
    Ret (match p with Disconnected => false | Connected _ => true end).
Proof.
  intros H0 Hmax. destruct p as [|g]; [done|].
  destruct (sleep_error_twice poll_interval H0 Hmax) as [E1 E2].
  rewrite loop_turn_connected. cbn zeta. rewrite E1, E2.
  by destruct g as [[|e rest]|x];
    [|destruct (for_each_event (e :: rest) s) as [[[[]|x] s1] t1]|].
Qed.


Lemma listening_loop_returns (poll_interval : Z) (polls : list poll) (s : Sys) :
  0 <= poll_interval → poll_interval * 2 <= sleep_max →
  ∃ e, res (listening_loop poll_interval polls s) = Ret e ∧
       (e = Returned ↔ In Disconnected polls).
Proof.
  intros H0 Hmax. revert s. induction polls as [|p rest IH]; intros s.
  - exists Still_polling. split; [done|]. split; [done|by intros []].
  - cbn [listening_loop]. unfold bind.
    pose proof (loop_turn_returns poll_interval p s H0 Hmax) as Hr.
    destruct (loop_turn poll_interval p s) as [[r s1] t1].
    unfold res in Hr. cbn [fst snd] in Hr. subst r.
    destruct p as [|g].
    + exists Returned. split; [done|]. split; [by left|done].
    + destruct (IH s1) as (e & He & Hiff).
      destruct (listening_loop poll_interval rest s1) as [[r2 s2] t2].
      unfold res in He |- *. cbn [fst snd] in He |- *. exists e. split; [done|].
      rewrite Hiff. split; [by right|by intros [?|?]].
Qed.

Lemma start_listening_returns (contract_ready filter_created : bool)
    (poll_interval : Z) (polls : list poll) (s : Sys) :
  0 <= poll_interval → poll_interval * 2 <= sleep_max →
  ∃ e, res (start_listening contract_ready filter_created poll_interval polls s) = Ret e ∧
       (e = Returned ↔
        contract_ready = false ∨ filter_created = false ∨ In Disconnected polls).
Proof.
  intros H0 Hmax. unfold start_listening.
  destruct contract_ready; cbn [negb];
    [|exists Returned; split; [done|]; split; [by left|done]].
  destruct filter_created; cbn [negb];
    [|exists Returned; split; [done|]; split; [by right; left|done]].
  unfold bind, logging, emit.
  destruct (listening_loop_returns poll_interval polls s H0 Hmax) as (e & He & Hiff).
  destruct (listening_loop poll_interval polls s) as [[r s1] t1].
  unfold res in He |- *. cbn [fst snd] in He |- *. exists e. split; [done|].
  rewrite Hiff. split; [by right; right|by intros [?|[?|?]]].
Qed.

Lemma listening_loop_disconnected (poll_interval : Z) (before after : list poll) (s : Sys) :
  listening_loop poll_interval (before ++ Disconnected :: after) s =
  listening_loop poll_interval (before ++ [Disconnected]) s.
Proof.
  revert s. induction before as [|p before IH]; intros s; [done|].
  cbn [app listening_loop]. unfold bind.
  destruct (loop_turn poll_interval p s) as [[[[|]|x] s1] t1]; [|done|done].
  by rewrite IH.
Qed.


(** X11. Once the connection is found down the loop is over: the polls
    that would have followed are never made, so the events they would
    have returned are neither executed nor committed, and the state
    store is left as the last turn before left it. *)
Theorem disconnect_ends_the_loop
    (poll_interval : Z) (before after : list poll) (s : Sys) :
  listening_loop poll_interval (before ++ Disconnected :: after) s =
  listening_loop poll_interval (before ++ [Disconnected]) s ∧
  let s1 := post (listening_loop poll_interval before s) in
  (Forall (fun p => p ≠ Disconnected) before →
   post (listening_loop poll_interval (before ++ Disconnected :: after) s) = s1).
Proof.
  split; [apply listening_loop_disconnected|]. cbn zeta.
  rewrite listening_loop_disconnected. revert s.
  induction before as [|p before IH]; intros s Hall; [done|].
  apply Forall_cons in Hall as [Hp Hall].
  cbn [app listening_loop]. unfold bind.
  destruct p as [|g]; [done|].
  pose proof (loop_turn_no_break poll_interval g s) as Hr.
  destruct (loop_turn poll_interval (Connected g) s) as [[[[|]|x] s1] t1];
    unfold res in Hr; cbn [fst snd] in Hr; [|done|done].
  specialize (IH s1 Hall).
  destruct (listening_loop poll_interval (before ++ [Disconnected]) s1) as [[r2 s2] t2].
  destruct (listening_loop poll_interval before s1) as [[r3 s3] t3].
  by unfold post in *.
Qed.

End Batches.

(** ** One event, from delivery to commit *)

Section One_event.
Context `{lib : Library}.

Lemma valid_has_required (a : gmap string value) :
  validate a = Valid → forallb (has_key a) required_arguments = true.
Proof.
  unfold validate. by destruct (forallb (has_key a) required_arguments).
Qed.

(** X12. The full course of a valid new event.  When the map is a [dict]
    without the event's identifier, the four checked arguments are there
    with a positive amount, the sender is an address and the recipient is
    there, [process_lock_event] returns normally, enters the simulation
    once and [mark_as_processed] once, and leaves the map with one more
    record, under the identifier, stamped with the time after the
    simulated delay of one second; if the next write succeeds the file
    holds exactly this map. *)
Theorem valid_new_event_is_relayed_once
    (e : Event) (s : Sys) (m : gmap string json) (sender recipient : value)
    (from : string) :
  _db s = JDict m → m !! event_identifier e = None →
  validate (args e) = Valid →
  args e !! "sender" = Some sender → to_checksum_address sender = Some from →
  args e !! "recipient" = Some recipient →
  let r := process_lock_event e s in
  res r = Ret tt ∧
  simulate_calls (obs r) = 1%nat ∧ mark_calls (obs r) = 1%nat ∧
  _db (post r) =
    JDict (<[event_identifier e :=
               JDict (<["timestamp" := JInt (clock s + 1)]>
                      (<["event_data" := JStr (py_str (args e))]> ∅))]> m) ∧
  clock (post r) = clock s + 1 ∧
  (head (faults s) = None ∨ head (faults s) = Some Written →
   disk (post r) = Document (_db (post r))).
Proof.
  intros Hdb Hk Hv Hsender Hfrom Hrecipient. cbn zeta.
  destruct (required_present _ (valid_has_required _ Hv))
    as (sender' & token & amount & chain & Hs' & Htoken & Hamount & Hchain).
  rewrite process_lock_event_eq. cbn zeta.
  rewrite Hdb, (py_in_dict_None _ _ Hk), Hv, Hchain.
  rewrite _simulate_destination_tx_eq, Hsender, Hfrom, Hrecipient, Hamount, Htoken.
  set (s1 := set_clock (clock s + 1) s).
  rewrite (mark_fresh (event_identifier e) (args e) s1 m Hdb Hk). cbn zeta.
  set (s2 := set_db _ s1). rewrite _save_db_eq.
  assert (Hf : faults s2 = faults s) by done. rewrite Hf.
  destruct (faults s) as [|[] rest]; cbn; repeat split; try done;
    intros [?|?]; done.
Qed.

(** X13. When the simulation raises (the sender is not an address, or an
    argument it reads is missing), [process_lock_event] raises the same
    exception with the state exactly as before: no delay, no record, no
    write.  The event is not marked, so it is simulated again when
    delivered again. *)
Theorem failed_simulation_changes_nothing (e : Event) (s : Sys) (x : exn) :
  res (has_processed (event_identifier e) s) = Ret false →
  validate (args e) = Valid →
  res (_simulate_destination_tx (args e) s) = Raise x →
  let r := process_lock_event e s in
  res r = Raise x ∧ post r = s ∧
  simulate_calls (obs r) = 1%nat ∧ mark_calls (obs r) = 0%nat ∧
  simulate_calls (obs (process_lock_event e (post r))) = 1%nat.
Proof.
  rewrite has_processed_eq. unfold res at 1. cbn [fst snd].
  intros Hin Hv Hsim. cbn zeta.
  assert (E : process_lock_event e s =
              (Raise x, s,
               Log INFO (Processing_event (hex (transactionHash e))) ::
               match args e !! "destinationChainId" with
               | Some chain => [Log INFO (Event_valid_simulating chain)]
               | None => []
               end ++ [Call_simulate (args e)])).
  { rewrite process_lock_event_eq. cbn zeta. rewrite Hin, Hv.
    revert Hsim. rewrite _simulate_destination_tx_eq.
    destruct (args e !! "sender") as [sender|]; [|by intros [= ->]].
    destruct (to_checksum_address sender); [|by intros [= ->]].
    by destruct (args e !! "recipient"), (args e !! "amount"), (args e !! "token");
      intros [= ->]. }
  rewrite E. unfold res, post, obs. cbn [fst snd]. rewrite E. cbn [snd].
  by destruct (args e !! "destinationChainId").
Qed.

End One_event.

(** ** Event identifiers *)

Lemma unhex_hex_byte (b : Byte.byte) :
  unhex_byte (hex_digit (Byte.to_N b / 16)) (hex_digit (Byte.to_N b mod 16)) = Some b.
Proof. destruct b; vm_compute; reflexivity. Qed.

Lemma hex_digit_not_dash (n : N) : hex_digit n ≠ "-"%char.
Proof.
  unfold hex_digit. generalize (N.to_nat n). intros k.
  do 16 (destruct k as [|k]; [cbn; discriminate|]).
  cbn. discriminate.
Qed.

Lemma hex_cons (b : Byte.byte) (bs : list Byte.byte) (tl : string) :
  hex (b :: bs) +:+ tl =
    String (hex_digit (Byte.to_N b / 16))
      (String (hex_digit (Byte.to_N b mod 16)) (hex bs +:+ tl)).
Proof. reflexivity. Qed.

Lemma hex_then_dash_inj (l1 l2 : list Byte.byte) (p1 p2 : string) :
  hex l1 +:+ "-" +:+ p1 = hex l2 +:+ "-" +:+ p2 → l1 = l2 ∧ p1 = p2.
Proof.
  revert l2. induction l1 as [|b1 l1 IH]; intros [|b2 l2].
  - change (hex [] +:+ "-" +:+ p1) with (String "-" p1).
    change (hex [] +:+ "-" +:+ p2) with (String "-" p2). by intros [= ?].
  - rewrite (hex_cons b2 l2). change (hex [] +:+ "-" +:+ p1) with (String "-" p1).
    intros [= Hc _]. symmetry in Hc. by apply hex_digit_not_dash in Hc.
  - rewrite (hex_cons b1 l1). change (hex [] +:+ "-" +:+ p2) with (String "-" p2).
    intros [= Hc _]. by apply hex_digit_not_dash in Hc.
  - rewrite (hex_cons b1 l1), (hex_cons b2 l2). intros [= Hc1 Hc2 Htl].
    destruct (IH _ Htl) as [-> ->]. split; [|done]. f_equal.
    pose proof (unhex_hex_byte b1) as H1. rewrite Hc1, Hc2, unhex_hex_byte in H1.
    by injection H1.
Qed.

Lemma event_identifier_eq (e1 e2 : Event) :
  event_identifier e1 = event_identifier e2 →
  transactionHash e1 = transactionHash e2 ∧ logIndex e1 = logIndex e2.
Proof.
  unfold event_identifier. intros E.
  apply hex_then_dash_inj in E as [Htx Hidx]. split; [done|].
  by apply pretty_Z_inj.
Qed.

Section Event_identifiers.
Context `{lib : Library}.

(** X14. The identifier keeps the whole key: two events with the same
    identifier have the same transaction hash and the same log index.
    And processing an event never changes what [has_processed] answers
    for an event with another transaction hash or another log index,
    whatever the state: the record it may add sits under its own
    identifier only. *)
Theorem event_identifier_inj (e1 e2 : Event) :
  (event_identifier e1 = event_identifier e2 →
   transactionHash e1 = transactionHash e2 ∧ logIndex e1 = logIndex e2) ∧
  (transactionHash e1 ≠ transactionHash e2 ∨ logIndex e1 ≠ logIndex e2 →
   ∀ s, res (has_processed (event_identifier e2) (post (process_lock_event e1 s))) =
        res (has_processed (event_identifier e2) s)).
Proof.
  split; [apply event_identifier_eq|].
  intros Hne s. rewrite !has_processed_eq. unfold res. cbn [fst snd].
  destruct (process_db_cases e1 s) as [->|(m & v & Hdb & _ & ->)]; [done|].
  rewrite Hdb, !py_in_dict. rewrite lookup_insert_ne; [done|].
  intros Heq. apply event_identifier_eq in Heq as [Htx Hidx].
  by destruct Hne.
Qed.

End Event_identifiers.

(** ** The connector *)

(** The pause between the attempts of the start-up. *)
Lemma five_seconds : 0 <= 5 <= sleep_max.
Proof. unfold sleep_max. lia. Qed.

Lemma set_clock_same (s : Sys) : set_clock (clock s) s = s.
Proof. by destruct s. Qed.

Lemma set_clock_twice (t t' : Z) (s : Sys) :
  set_clock t (set_clock t' s) = set_clock t s.
Proof. reflexivity. Qed.

Lemma refuses_caught (a : node_answer) :
  refuses a = true → is_ConnectionError (refusal a) = true.
Proof. by destruct a. Qed.

(** One turn of the loop, by the answer and by whether a turn is left. *)
Lemma connect_loop_again (rpc_url : string) (retries delay attempt : Z) (todo : nat)
    (a : node_answer) (rest : list node_answer) (w : World) :
  refuses a = true → attempt < retries - 1 → 0 <= delay <= sleep_max →
  connect_loop rpc_url retries delay attempt (S todo) (a :: rest) w =
    let w1 := {| sys := set_clock (clock (sys w) + delay) (sys w);
                 web3 := Some rpc_url |} in
    let '(r, w2, t2) := connect_loop rpc_url retries delay (attempt + 1) todo rest w1 in
    (r, w2,
     [Net INFO (Attempting_to_connect rpc_url (attempt + 1) retries);
      Net ERROR (Connection_attempt_failed (refusal a));
      Net INFO (Retrying_in delay);
      Core (Sleep delay)] ++ t2).
Proof.
  intros Hr Hlt Hdelay. apply Z.ltb_lt in Hlt.
  cbn [connect_loop]. unfold pbind at 1, ptry_except, pbind at 1, net_log at 1.
  unfold pbind at 1, set_web3 at 1. cbn [answer_of].
  destruct a as [c|f|]; [done| |]; cbn in Hr |- *; rewrite ?Hr, Hlt;
    unfold pbind, net_log, lift_py, pret;
    rewrite time_sleep_eq, (sleep_error_None delay Hdelay); cbn;
    by destruct (connect_loop rpc_url retries delay (attempt + 1) todo rest _)
      as [[r w2] t2].
Qed.

Lemma connect_loop_last (rpc_url : string) (retries delay attempt : Z) (todo : nat)
    (answers : list node_answer) (w : World) :
  refuses (answer_of answers) = true → ¬ attempt < retries - 1 →
  connect_loop rpc_url retries delay attempt (S todo) answers w =
    (Failed (refusal (answer_of answers)),
     {| sys := sys w; web3 := Some rpc_url |},
     [Net INFO (Attempting_to_connect rpc_url (attempt + 1) retries);
      Net ERROR (Connection_attempt_failed (refusal (answer_of answers)));
      Net CRITICAL All_attempts_failed]).
Proof.
  intros Hr Hlt. apply Z.ltb_nlt in Hlt.
  cbn [connect_loop]. unfold pbind at 1, ptry_except, pbind at 1, net_log at 1.
  unfold pbind at 1, set_web3 at 1.
  destruct (answer_of answers) as [c|f|]; [done| |]; cbn in Hr |- *;
    by rewrite ?Hr, Hlt.
Qed.

Lemma connect_loop_decided (rpc_url : string) (retries delay attempt : Z) (todo : nat)
    (a : node_answer) (rest : list node_answer) (w : World) :
  refuses a = false →
  connect_loop rpc_url retries delay attempt (S todo) (a :: rest) w =
    (match a with Up_then_raises f => Failed f | _ => Done tt end,
     {| sys := sys w; web3 := Some rpc_url |},
     Net INFO (Attempting_to_connect rpc_url (attempt + 1) retries) ::
     match a with Up c => [Net INFO (Connected_to_chain c)] | _ => [] end).
Proof.
  intros Hr.
  cbn [connect_loop]. unfold pbind at 1, ptry_except, pbind at 1, net_log at 1.
  unfold pbind at 1, set_web3 at 1. cbn [answer_of].
  destruct a as [c|f|]; [done| |done]. cbn in Hr |- *. by rewrite Hr.
Qed.

Lemma connect_loop_first_answer (rpc_url : string) (retries delay : Z)
    (before : list node_answer) (a : node_answer) (after : list node_answer)
    (attempt : Z) (todo : nat) (w : World) :
  Forall (fun b => refuses b = true) before →
  (List.length before < todo)%nat →
  attempt + Z.of_nat todo = retries →
  refuses a = false →
  0 <= delay <= sleep_max →
  let r := connect_loop rpc_url retries delay attempt todo (before ++ a :: after) w in
  pres r = match a with Up_then_raises f => Failed f | _ => Done tt end ∧
  ppost r = {| sys := set_clock (clock (sys w) + Z.of_nat (List.length before) * delay)
                        (sys w);
               web3 := Some rpc_url |} ∧
  attempts_made (pobs r) = S (List.length before).
Proof.
  revert attempt todo w. induction before as [|b before IH];
    intros attempt todo w Hall Hlen Hsum Ha Hdelay; cbn zeta.
  - destruct todo as [|todo]; [cbn in Hlen; lia|].
    cbn [app]. rewrite connect_loop_decided by done.
    unfold pres, ppost, pobs. cbn [fst snd List.length].
    rewrite Z.mul_0_l, Z.add_0_r, set_clock_same. by destruct a.
  - apply Forall_cons in Hall as [Hb Hall].
    destruct todo as [|todo]; [cbn in Hlen; lia|]. cbn [List.length] in Hlen.
    cbn [app]. rewrite connect_loop_again by (done || lia). cbn zeta.
    set (w1 := {| sys := set_clock (clock (sys w) + delay) (sys w);
                  web3 := Some rpc_url |}).
    destruct (IH (attempt + 1) todo w1 Hall) as (Hr & Hp & Hn); [lia|lia|done|done|].
    destruct (connect_loop rpc_url retries delay (attempt + 1) todo
                (before ++ a :: after) w1) as [[r w2] t2].
    unfold pres, ppost, pobs in *. cbn [fst snd] in *.
    split; [done|]. split.
    + rewrite Hp. subst w1. cbn [sys clock set_clock List.length].
      f_equal. unfold set_clock. cbn. f_equal. lia.
    + unfold attempts_made in *. cbn. by rewrite Hn.
Qed.


(** X15. With [connection_retries] zero or negative the connector makes
    no attempt at all and its constructor returns normally, with [web3]
    still [None]: no exception tells the caller, and [is_connected()] is
    false whatever the node would answer. *)
Theorem connector_without_retries_is_silently_down
    (rpc_url : string) (retries delay : Z) (answers : list node_answer)
    (live : bool) (w : World) :
  retries <= 0 →
  let r := BlockchainConnector_init rpc_url retries delay answers w in
  r = (Done tt, {| sys := sys w; web3 := None |}, []) ∧
  pres (is_connected live (ppost r)) = Done false.
Proof.
  intros Hle. cbn zeta.
  unfold BlockchainConnector_init, _connect, pbind, set_web3.
  destruct retries as [|p|p]; try lia; by split.
Qed.



Section Program_properties.
Context `{lib : Library}.

(** X18. [get_contract] never raises and never changes anything: every
    failure (not connected, an address that is no address, an ABI that
    does not fit, any other exception of the binding) is logged and
    turned into [None].  It returns a contract exactly when [web3] is
    set, the node is live, the address has a checksum form and the
    binding succeeds. *)
Theorem get_contract_never_raises
    (live : bool) (answer : binding) (address : string) (w : World) :
  let r := get_contract live answer address w in
  ppost r = w ∧
  ∃ c, pres r = Done c ∧
       (is_Some c ↔
        is_Some (web3 w) ∧ live = true ∧
        is_Some (to_checksum_address (VStr address)) ∧ answer = Bound) ∧
       (c = None → ∃ m, pobs r = [Net ERROR m]).
Proof.
  cbn zeta. unfold get_contract, pbind, is_connected, get_web3, pret, net_log.
  destruct w as [s [h|]], live, (to_checksum_address (VStr address)) as [a|], answer;
    cbn; (split; [done|]); eexists; (split; [done|]);
    (split; [split; [intros [? ?]|intros ([? ?] & ? & [? ?] & ?)]|]);
    unfold is_Some; naive_solver.
Qed.

Lemma pbind_failed {A B} (m : Prog A) (k : A → Prog B) (w : World) (f : failure) :
  pres (m w) = Failed f → pbind m k w = (Failed f, ppost (m w), pobs (m w)).
Proof.
  unfold pbind, pres, ppost, pobs. destruct (m w) as [[[a|f'] w1] t1]; cbn; [done|].
  by intros [= ->].
Qed.

(** X19. When the node refuses all three attempts of the start-up, [main]
    ends in the connection error before a [StateDB] exists: the state
    file has not been read, nothing of the state store has changed but
    the clock, which is ten seconds on (two pauses of five), and nothing
    of the processor or the loop has run. *)
Theorem main_fails_before_the_state_store (env : Env) (w : World) :
  not_set (RPC_URL env) = false →
  not_set (BRIDGE_CONTRACT_ADDRESS env) = false →
  (∀ i, (i < 3)%nat → refuses (answer_of (drop i (node_answers env))) = true) →
  let r := main env w in
  (∃ f, pres r = Failed f ∧ is_ConnectionError f = true) ∧
  sys (ppost r) = set_clock (clock (sys w) + 10) (sys w) ∧
  attempts_made (pobs r) = 3%nat ∧
  List.filter is_core (pobs r) = [Core (Sleep 5); Core (Sleep 5)].
Proof.
  intros Hrpc Haddr Hall. cbn zeta. unfold main. rewrite Hrpc, Haddr. cbn [orb].
  destruct (RPC_URL env) as [rpc_url|]; [|done]. cbn [default].
  change (id rpc_url) with rpc_url. unfold run_listener.
  set (w0 := {| sys := sys w; web3 := None |}).
  assert (Hinit : ∃ f, BlockchainConnector_init rpc_url 3 5 (node_answers env) w =
            (Failed f,
             {| sys := set_clock (clock (sys w) + 10) (sys w); web3 := Some rpc_url |},
             [Net INFO (Attempting_to_connect rpc_url 1 3);
              Net ERROR (Connection_attempt_failed
                           (refusal (answer_of (node_answers env))));
              Net INFO (Retrying_in 5); Core (Sleep 5);
              Net INFO (Attempting_to_connect rpc_url 2 3);
              Net ERROR (Connection_attempt_failed
                           (refusal (answer_of (drop 1 (node_answers env)))));
              Net INFO (Retrying_in 5); Core (Sleep 5);
              Net INFO (Attempting_to_connect rpc_url 3 3);
              Net ERROR (Connection_attempt_failed f);
              Net CRITICAL All_attempts_failed]) ∧ is_ConnectionError f = true).
  { exists (refusal (answer_of (drop 2 (node_answers env)))).
    split; [|by apply refuses_caught, Hall; lia].
    pose proof (Hall 0%nat ltac:(lia)) as H0.
    pose proof (Hall 1%nat ltac:(lia)) as H1.
    pose proof (Hall 2%nat ltac:(lia)) as H2.
    unfold BlockchainConnector_init, _connect, pbind at 1, set_web3 at 1.
    change (Z.to_nat 3) with 3%nat. fold w0.
    destruct (node_answers env) as [|a0 [|a1 [|a2 rest]]]; cbn [drop] in *.
    - assert (E : ∀ n at_ ww, connect_loop rpc_url 3 5 at_ (S n) [] ww =
                              connect_loop rpc_url 3 5 at_ (S n) [Down] ww)
        by reflexivity.
      rewrite E, connect_loop_again by (done || lia || apply five_seconds). cbn zeta. cbn [tail].
      rewrite E, connect_loop_again by (done || lia || apply five_seconds). cbn zeta.
      rewrite connect_loop_last by (done || lia || apply five_seconds). cbn.
      f_equal. f_equal. f_equal. unfold set_clock. cbn. f_equal. lia.
    - rewrite connect_loop_again by (done || lia || apply five_seconds). cbn zeta.
      assert (E : ∀ n at_ ww, connect_loop rpc_url 3 5 at_ (S n) [] ww =
                              connect_loop rpc_url 3 5 at_ (S n) [Down] ww)
        by reflexivity.
      rewrite E, connect_loop_again by (done || lia || apply five_seconds). cbn zeta.
      rewrite connect_loop_last by (done || lia || apply five_seconds). cbn.
      f_equal. f_equal. f_equal. unfold set_clock. cbn. f_equal. lia.
    - cbn [answer_of] in *.
      rewrite connect_loop_again by (done || lia || apply five_seconds). cbn zeta.
      rewrite connect_loop_again by (done || lia || apply five_seconds). cbn zeta.
      rewrite connect_loop_last by (done || lia || apply five_seconds). cbn.
      f_equal. f_equal. f_equal. unfold set_clock. cbn. f_equal. lia.
    - cbn [answer_of] in *.
      rewrite connect_loop_again by (done || lia || apply five_seconds). cbn zeta.
      rewrite connect_loop_again by (done || lia || apply five_seconds). cbn zeta.
      rewrite connect_loop_last by (done || lia || apply five_seconds). cbn.
      f_equal. f_equal. f_equal. unfold set_clock. cbn. f_equal. lia. }
  destruct Hinit as (f & Hinit & Hf).
  rewrite (pbind_failed _ _ w f) by (by rewrite Hinit).
  rewrite Hinit. unfold pres, ppost, pobs. cbn [fst snd sys].
  split; [by exists f|]. done.
Qed.

Lemma pbind_ext {A B} (m : Prog A) (k1 k2 : A → Prog B) (w : World) :
  (∀ a, pres (m w) = Done a → k1 a (ppost (m w)) = k2 a (ppost (m w))) →
  pbind m k1 w = pbind m k2 w.
Proof.
  unfold pbind, pres, ppost. destruct (m w) as [[[a|f] w1] t1]; cbn; [|done].
  intros H. by rewrite (H a).
Qed.

Lemma pbind_done {A B} (m : Prog A) (k : A → Prog B) (w w1 : World) (a : A)
    (t1 : list Ev) :
  m w = (Done a, w1, t1) →
  pbind m k w = let '(r, w2, t2) := k a w1 in (r, w2, t1 ++ t2).
Proof. unfold pbind. by intros ->. Qed.

Lemma _setup_contract_ignores_polls (ps : list poll) (env : Env) (address : string) :
  _setup_contract (with_polls ps env) address = _setup_contract env address.
Proof. reflexivity. Qed.

Lemma _setup_contract_without (env : Env) (address : string) (w : World) :
  setup_live env = false ∨ get_contract_live env = false ∨
  to_checksum_address (VStr address) = None ∨ contract_binding env ≠ Bound →
  ∃ tr, _setup_contract env address w = (Done None, w, tr).
Proof.
  intros Hno. unfold _setup_contract, get_contract, pbind, is_connected, get_web3,
    pret, net_log.
  destruct w as [s [h|]]; cbn; [|by eexists].
  destruct (setup_live env) eqn:Hs; cbn; [|by eexists].
  destruct (get_contract_live env) eqn:Hg; cbn; [|by eexists].
  destruct (to_checksum_address (VStr address)) eqn:Ha; cbn; [|by eexists].
  destruct (contract_binding env) eqn:Hb; cbn; try by eexists.
  by destruct Hno as [?|[?|[?|?]]].
Qed.

(** X20. Without a contract the program never polls: when the start-up
    gets no contract (the node is not live, the address is no address, or
    the binding fails), [main] does the same whatever events the chain
    would deliver: [start_listening] returns before its loop. *)
Theorem main_without_contract_never_polls
    (env : Env) (ps : list poll) (w : World) :
  setup_live env = false ∨ get_contract_live env = false ∨
  to_checksum_address (VStr (default EmptyString (BRIDGE_CONTRACT_ADDRESS env))) = None ∨
  contract_binding env ≠ Bound →
  main (with_polls ps env) w = main (with_polls [] env) w.
Proof.
  intros Hno. unfold main. cbn [RPC_URL BRIDGE_CONTRACT_ADDRESS with_polls].
  destruct (not_set (RPC_URL env) || not_set (BRIDGE_CONTRACT_ADDRESS env)); [done|].
  unfold run_listener. cbn [node_answers with_polls filter_created polls].
  apply pbind_ext. intros _ _. apply pbind_ext. intros _ _.
  rewrite !_setup_contract_ignores_polls.
  set (w2 := ppost _).
  destruct (_setup_contract_without env _ w2 Hno) as (tr & E).
  rewrite !(pbind_done _ _ _ _ _ _ E).
  unfold pbind, get_web3, lift_py, start_listening. by cbn.
Qed.

End Program_properties.

(** ** From [main] to the loop *)

Lemma filter_is_core_map (t : list Obs) :
  List.filter is_core (List.map Core t) = List.map Core t.
Proof. induction t as [|o t IH]; [done|]. cbn. by rewrite IH. Qed.

Lemma connect_loop_first_answer_core (rpc_url : string) (retries delay : Z)
    (before : list node_answer) (a : node_answer) (after : list node_answer)
    (attempt : Z) (todo : nat) (w : World) :
  Forall (fun b => refuses b = true) before →
  (List.length before < todo)%nat →
  attempt + Z.of_nat todo = retries →
  refuses a = false →
  0 <= delay <= sleep_max →
  List.filter is_core
    (pobs (connect_loop rpc_url retries delay attempt todo (before ++ a :: after) w)) =
  replicate (List.length before) (Core (Sleep delay)).
Proof.
  revert attempt todo w. induction before as [|b before IH];
    intros attempt todo w Hall Hlen Hsum Ha Hdelay.
  - destruct todo as [|todo]; [cbn in Hlen; lia|].
    cbn [app]. rewrite connect_loop_decided by done.
    unfold pobs. cbn [fst snd List.length]. by destruct a.
  - apply Forall_cons in Hall as [Hb Hall].
    destruct todo as [|todo]; [cbn in Hlen; lia|]. cbn [List.length] in Hlen.
    cbn [app]. rewrite connect_loop_again by (done || lia). cbn zeta.
    set (w1 := {| sys := set_clock (clock (sys w) + delay) (sys w);
                  web3 := Some rpc_url |}).
    pose proof (IH (attempt + 1) todo w1 Hall ltac:(lia) ltac:(lia) Ha Hdelay) as Hc.
    destruct (connect_loop rpc_url retries delay (attempt + 1) todo
                (before ++ a :: after) w1) as [[r w2] t2].
    unfold pobs in *. cbn [fst snd] in *. cbn. by rewrite Hc.
Qed.

Lemma BlockchainConnector_init_connects (rpc_url : string)
    (before : list node_answer) (c : Z) (after : list node_answer) (w : World) :
  Forall (fun b => refuses b = true) before →
  (List.length before < 3)%nat →
  let r := BlockchainConnector_init rpc_url 3 5 (before ++ Up c :: after) w in
  pres r = Done tt ∧
  ppost r = {| sys := set_clock (clock (sys w) + Z.of_nat (List.length before) * 5) (sys w);
               web3 := Some rpc_url |} ∧
  List.filter is_core (pobs r) = replicate (List.length before) (Core (Sleep 5)).
Proof.
  intros Hall Hlen. cbn zeta.
  unfold BlockchainConnector_init, _connect, pbind, set_web3.
  change (Z.to_nat 3) with 3%nat.
  set (w0 := {| sys := sys w; web3 := None |}).
  destruct (connect_loop_first_answer rpc_url 3 5 before (Up c) after 0 3 w0)
    as (Hr & Hp & _); [done|done|done|done|apply five_seconds|].
  pose proof (connect_loop_first_answer_core rpc_url 3 5 before (Up c) after 0 3 w0
                Hall Hlen eq_refl eq_refl five_seconds) as Hc.
  destruct (connect_loop rpc_url 3 5 0 3 (before ++ Up c :: after) w0) as [[r w2] t2].
  unfold pres, ppost, pobs in *. by cbn [fst snd app] in *.
Qed.

Lemma pbind_through {A B} (m : Prog A) (k : A → Prog B) (w : World) (a : A) :
  pres (m w) = Done a →
  pbind m k w = let '(r, w2, t2) := k a (ppost (m w)) in (r, w2, pobs (m w) ++ t2).
Proof.
  unfold pbind, pres, ppost, pobs. destruct (m w) as [[[a'|f] w1] t1]; cbn; [|done].
  by intros [= ->].
Qed.

Lemma lift_py_eq {A} (m : Py A) (w : World) :
  lift_py m w =
    (match res (m (sys w)) with Ret a => Done a | Raise e => Failed (Py_raised e) end,
     {| sys := post (m (sys w)); web3 := web3 w |},
     List.map Core (obs (m (sys w)))).
Proof. unfold lift_py, res, post, obs. by destruct (m (sys w)) as [[r s1] t]. Qed.

Lemma pbind_get_web3 {B} (k : option string → Prog B) (w : World) :
  pbind get_web3 k w = k (web3 w) w.
Proof. unfold pbind, get_web3. by destruct (k (web3 w) w) as [[r w2] t2]. Qed.

Section End_to_end.
Context `{lib : Library}.

Lemma _setup_contract_with (env : Env) (address checksummed : string) (w : World) :
  is_Some (web3 w) →
  setup_live env = true → get_contract_live env = true →
  to_checksum_address (VStr address) = Some checksummed →
  contract_binding env = Bound →
  _setup_contract env address w =
    (Done (Some {| contract_address := checksummed |}), w,
     [Net INFO (Contract_initialized address)]).
Proof.
  intros [h Hw] Hs Hg Ha Hb.
  unfold _setup_contract, get_contract, pbind, is_connected, get_web3, pret, net_log.
  destruct w as [s w3]. cbn in Hw. subst w3. cbn. rewrite Hs, Hg. cbn.
  by rewrite Ha, Hb.
Qed.

(** X21. When the start-up succeeds, [main] is the listening loop on the
    state loaded from the file.  With both variables set, a node that
    answers at one of the three attempts, a live connection, an address
    with a checksum form and a fitting ABI, [main] raises nothing; it has
    returned exactly when [start_listening(poll_interval=10)] has, that
    is when the filter cannot be created or a poll finds the connection
    down, and is still polling otherwise.  The state store it leaves is
    the one [start_listening] leaves when started on the state that
    [StateDB()] has loaded, after one pause of five seconds for every
    refused attempt; and what the state store, the processor and the
    loop do during [main] is, in this order, those pauses, the loading
    and the loop. *)
Theorem main_runs_the_loop_on_the_loaded_state
    (env : Env) (w : World) (rpc_url address checksummed : string)
    (before : list node_answer) (c : Z) (after : list node_answer) :
  RPC_URL env = Some rpc_url → not_set (Some rpc_url) = false →
  BRIDGE_CONTRACT_ADDRESS env = Some address → not_set (Some address) = false →
  node_answers env = before ++ Up c :: after →
  Forall (fun b => refuses b = true) before →
  (List.length before < 3)%nat →
  setup_live env = true → get_contract_live env = true →
  to_checksum_address (VStr address) = Some checksummed →
  contract_binding env = Bound →
  let s1 := set_clock (clock (sys w) + Z.of_nat (List.length before) * 5) (sys w) in
  res (StateDB_init s1) = Ret tt →
  let loop := start_listening true (filter_created env) 10 (polls env)
                (post (StateDB_init s1)) in
  let r := main env w in
  (∃ e, res loop = Ret e ∧ pres r = Done e ∧
        (e = Returned ↔ filter_created env = false ∨ In Disconnected (polls env))) ∧
  ppost r = {| sys := post loop; web3 := Some rpc_url |} ∧
  List.filter is_core (pobs r) =
    replicate (List.length before) (Core (Sleep 5)) ++
    List.map Core (obs (StateDB_init s1) ++ obs loop).
Proof.
  intros Hrpc Hrpc_set Haddr Haddr_set Hanswers Hall Hlen Hs Hg Ha Hb s1 Hinit.
  cbn zeta. unfold main. rewrite Hrpc, Haddr, Hrpc_set, Haddr_set. cbn [orb default].
  change (id rpc_url) with rpc_url. change (id address) with address.
  unfold run_listener. rewrite Hanswers.
  destruct (BlockchainConnector_init_connects rpc_url before c after w Hall Hlen)
    as (Hr & Hp & Hc).
  rewrite (pbind_through _ _ w tt Hr), Hp. fold s1.
  set (w1 := {| sys := s1; web3 := Some rpc_url |}).
  assert (E2 : lift_py StateDB_init w1 =
               (Done tt, {| sys := post (StateDB_init s1); web3 := Some rpc_url |},
                List.map Core (obs (StateDB_init s1))))
    by (rewrite lift_py_eq; cbn [sys web3 w1]; by rewrite Hinit).
  rewrite (pbind_done _ _ _ _ _ _ E2).
  set (w2 := {| sys := post (StateDB_init s1); web3 := Some rpc_url |}).
  rewrite (pbind_done _ _ _ _ _ _
             (_setup_contract_with env address checksummed w2
                ltac:(by eexists) Hs Hg Ha Hb)).
  rewrite pbind_get_web3, lift_py_eq. cbn [sys web3 w2].
  assert (Hready : bool_decide (is_Some (Some {| contract_address := checksummed |})) &&
                   bool_decide (is_Some (Some rpc_url)) = true).
  { rewrite !bool_decide_eq_true_2; [done|by eexists|by eexists]. }
  rewrite Hready.
  destruct (start_listening_returns true (filter_created env) 10 (polls env)
              (post (StateDB_init s1)))
    as (e & He & Hiff); [lia|unfold sleep_max; lia|].
  rewrite He.
  unfold pres, ppost, pobs in Hc |- *. cbn [fst snd app].
  split; [|split; [done|]].
  - exists e. split; [done|]. split; [done|]. rewrite Hiff.
    split; [by intros [?|?]|by right].
  - rewrite !List.filter_app, Hc, !filter_is_core_map. cbn [List.filter is_core app].
    by rewrite filter_is_core_map, List.map_app.
Qed.

(** X22. A state file that cannot be opened or read stops the program:
    [main] connects, then ends in the [PermissionError] of [StateDB()].
    No contract is set up, the loop is not entered, no event is taken up
    and the state store is as it was but for the clock. *)
Theorem main_stops_on_unreadable_state_file
    (env : Env) (w : World) (rpc_url address : string)
    (before : list node_answer) (c : Z) (after : list node_answer) :
  RPC_URL env = Some rpc_url → not_set (Some rpc_url) = false →
  BRIDGE_CONTRACT_ADDRESS env = Some address → not_set (Some address) = false →
  node_answers env = before ++ Up c :: after →
  Forall (fun b => refuses b = true) before →
  (List.length before < 3)%nat →
  disk (sys w) = Unreadable →
  let r := main env w in
  pres r = Failed (Py_raised PermissionError) ∧
  ppost r = {| sys := set_clock (clock (sys w) + Z.of_nat (List.length before) * 5) (sys w);
               web3 := Some rpc_url |} ∧
  List.filter is_core (pobs r) = replicate (List.length before) (Core (Sleep 5)).
Proof.
  intros Hrpc Hrpc_set Haddr Haddr_set Hanswers Hall Hlen Hdisk.
  cbn zeta. unfold main. rewrite Hrpc, Haddr, Hrpc_set, Haddr_set. cbn [orb default].
  change (id rpc_url) with rpc_url. change (id address) with address.
  unfold run_listener. rewrite Hanswers.
  destruct (BlockchainConnector_init_connects rpc_url before c after w Hall Hlen)
    as (Hr & Hp & Hc).
  rewrite (pbind_through _ _ w tt Hr), Hp.
  set (s1 := set_clock _ (sys w)).
  set (w1 := {| sys := s1; web3 := Some rpc_url |}).
  assert (E2 : lift_py StateDB_init w1 = (Failed (Py_raised PermissionError), w1, [])).
  { rewrite lift_py_eq. cbn [sys web3 w1].
    by rewrite (StateDB_init_unreadable s1 Hdisk). }
  rewrite (pbind_failed _ _ w1 (Py_raised PermissionError)) by (by rewrite E2).
  rewrite E2. unfold pres, ppost, pobs in Hc |- *. cbn [fst snd].
  split; [done|]. split; [done|].
  by rewrite app_nil_r.
Qed.

End End_to_end.

(** ** Concrete runs of the further properties *)

Lemma mark_as_processed_inserts_one_record_witness :
  ∃ m', _db (post (mark_as_processed (lib:=sample_library) "01-0" (sample_args 50)
                     empty_sys)) = JDict m' ∧
        m' !! "01-0" =
          Some (JDict (<["timestamp" := JInt 1700000000]>
                       (<["event_data" :=
                            JStr (py_str (Library:=sample_library) (sample_args 50))]> ∅))) ∧
        ∀ k', k' ≠ "01-0" → m' !! k' = (∅ : gmap string json) !! k'.
Proof.
  exact (proj2 (mark_as_processed_inserts_one_record (lib:=sample_library)
                  "01-0" (sample_args 50) empty_sys) ∅ eq_refl (lookup_empty _)).
Defined.

Lemma drained_batch_is_not_executed_again_witness :
  res (for_each_event (lib:=sample_library) two_events empty_sys) = Ret tt ∧
  let again := for_each_event (lib:=sample_library) two_events relayed_two_sys in
  res again = Ret tt ∧ post again = relayed_two_sys ∧
  simulate_calls (obs again) = 0%nat ∧ mark_calls (obs again) = 0%nat.
Proof.
  assert (H : res (for_each_event (lib:=sample_library) two_events empty_sys) = Ret tt)
    by (vm_compute; reflexivity).
  split; [exact H|].
  exact (drained_batch_is_not_executed_again (lib:=sample_library) two_events empty_sys H).
Defined.

Lemma drained_batch_is_not_executed_after_restart_witness :
  writes_succeed empty_sys ∧
  res (StateDB_init empty_sys) = Ret tt ∧
  res (for_each_event (lib:=sample_library) two_events (post (StateDB_init empty_sys))) =
    Ret tt ∧
  let s' := post (for_each_event (lib:=sample_library) two_events
                    (post (StateDB_init empty_sys))) in
  res (StateDB_init s') = Ret tt ∧
  post (StateDB_init s') = s' ∧
  let again := for_each_event (lib:=sample_library) two_events (post (StateDB_init s')) in
  res again = Ret tt ∧
  simulate_calls (obs again) = 0%nat ∧ mark_calls (obs again) = 0%nat.
Proof.
  assert (Hw : writes_succeed empty_sys) by apply Forall_nil_2.
  assert (Hi : res (StateDB_init empty_sys) = Ret tt) by reflexivity.
  assert (Hd : res (for_each_event (lib:=sample_library) two_events
                      (post (StateDB_init empty_sys))) = Ret tt)
    by (vm_compute; reflexivity).
  split; [exact Hw|]. split; [exact Hi|]. split; [exact Hd|].
  exact (drained_batch_is_not_executed_after_restart (lib:=sample_library)
           two_events empty_sys Hw Hi Hd).
Defined.

Lemma file_never_ahead_of_memory_witness :
  res (StateDB_init empty_sys) = Ret tt ∧
  let s := run_ops (lib:=sample_library)
             [Mark_as_processed "01-0" (sample_args 50); Reload]
             (post (StateDB_init empty_sys)) in
  res (has_processed_after_restart "01-0" s) = Ret true ∧
  res (has_processed "01-0" s) = Ret true.
Proof.
  assert (Hi : res (StateDB_init empty_sys) = Ret tt) by reflexivity.
  assert (Hf : res (has_processed_after_restart "01-0"
                      (run_ops (lib:=sample_library)
                         [Mark_as_processed "01-0" (sample_args 50); Reload]
                         (post (StateDB_init empty_sys)))) = Ret true)
    by (vm_compute; reflexivity).
  split; [exact Hi|]. split; [exact Hf|].
  exact (file_never_ahead_of_memory (lib:=sample_library)
           [Mark_as_processed "01-0" (sample_args 50); Reload] empty_sys "01-0" Hi Hf).
Defined.

Lemma non_object_state_records_nothing_witness :
  (∀ m, _db array_sys ≠ JDict m) ∧
  let r := process_lock_event (lib:=sample_library) (sample_event 0 50) array_sys in
  _db (post r) = _db array_sys ∧ disk (post r) = disk array_sys ∧
  (In (Return_simulate (args (sample_event 0 50))) (obs r) → res r = Raise TypeError) ∧
  simulate_calls (obs (process_lock_event (lib:=sample_library) (sample_event 0 50)
                         (post r))) = simulate_calls (obs r).
Proof.
  assert (H : ∀ m, _db array_sys ≠ JDict m) by (intros m; discriminate).
  split; [exact H|].
  exact (non_object_state_records_nothing (lib:=sample_library)
           (sample_event 0 50) array_sys H).
Defined.


Lemma batches_compose_witness :
  res (for_each_event (lib:=sample_library) [sample_event 0 50] empty_sys) = Ret tt ∧
  post (for_each_event (lib:=sample_library) ([sample_event 0 50] ++ [sample_event 1 75])
          empty_sys) =
    post (for_each_event (lib:=sample_library) [sample_event 1 75]
            (post (for_each_event (lib:=sample_library) [sample_event 0 50] empty_sys))).
Proof.
  assert (H : res (for_each_event (lib:=sample_library) [sample_event 0 50] empty_sys) =
              Ret tt) by (vm_compute; reflexivity).
  split; [exact H|].
  exact (proj1 (proj2 (batches_compose (lib:=sample_library)
                         [sample_event 0 50] [sample_event 1 75] empty_sys H))).
Defined.



Lemma disconnect_ends_the_loop_witness :
  Forall (fun p => p ≠ Disconnected) [Connected (Ret two_events)] ∧
  post (listening_loop (lib:=sample_library) 10
          ([Connected (Ret two_events)] ++
           Disconnected :: [Connected (Ret [sample_event 2 10])]) empty_sys) =
    post (listening_loop (lib:=sample_library) 10 [Connected (Ret two_events)] empty_sys).
Proof.
  assert (H : Forall (fun p => p ≠ Disconnected) [Connected (Ret two_events)])
    by (apply Forall_cons_2; [discriminate|apply Forall_nil_2]).
  split; [exact H|].
  exact (proj2 (disconnect_ends_the_loop (lib:=sample_library) 10
                  [Connected (Ret two_events)] [Connected (Ret [sample_event 2 10])]
                  empty_sys) H).
Defined.

Lemma valid_new_event_is_relayed_once_witness :
  validate (args (sample_event 0 50)) = Valid ∧
  let r := process_lock_event (lib:=sample_library) (sample_event 0 50) empty_sys in
  res r = Ret tt ∧
  simulate_calls (obs r) = 1%nat ∧ mark_calls (obs r) = 1%nat ∧
  _db (post r) =
    JDict (<[event_identifier (sample_event 0 50) :=
               JDict (<["timestamp" := JInt (clock empty_sys + 1)]>
                      (<["event_data" :=
                           JStr (py_str (Library:=sample_library)
                                   (args (sample_event 0 50)))]> ∅))]> ∅) ∧
  clock (post r) = clock empty_sys + 1 ∧
  (head (faults empty_sys) = None ∨ head (faults empty_sys) = Some Written →
   disk (post r) = Document (_db (post r))).
Proof.
  assert (Hv : validate (args (sample_event 0 50)) = Valid) by (vm_compute; reflexivity).
  split; [exact Hv|].
  exact (valid_new_event_is_relayed_once (lib:=sample_library)
           (sample_event 0 50) empty_sys ∅
           (VStr "0x00000000000000000000000000000000000000a1") (VBytes [Byte.xc3])
           "0x00000000000000000000000000000000000000a1"
           eq_refl (lookup_empty _) Hv
           ltac:(vm_compute; reflexivity) eq_refl ltac:(vm_compute; reflexivity)).
Defined.

Lemma failed_simulation_changes_nothing_witness :
  res (has_processed (event_identifier no_recipient_event) empty_sys) = Ret false ∧
  validate (args no_recipient_event) = Valid ∧
  res (_simulate_destination_tx (lib:=sample_library) (args no_recipient_event)
         empty_sys) = Raise (KeyError "recipient") ∧
  let r := process_lock_event (lib:=sample_library) no_recipient_event empty_sys in
  res r = Raise (KeyError "recipient") ∧ post r = empty_sys ∧
  simulate_calls (obs r) = 1%nat ∧ mark_calls (obs r) = 0%nat ∧
  simulate_calls (obs (process_lock_event (lib:=sample_library) no_recipient_event
                         (post r))) = 1%nat.
Proof.
  assert (H1 : res (has_processed (event_identifier no_recipient_event) empty_sys) =
               Ret false) by (vm_compute; reflexivity).
  assert (H2 : validate (args no_recipient_event) = Valid) by (vm_compute; reflexivity).
  assert (H3 : res (_simulate_destination_tx (lib:=sample_library)
                      (args no_recipient_event) empty_sys) = Raise (KeyError "recipient"))
    by (vm_compute; reflexivity).
  split; [exact H1|]. split; [exact H2|]. split; [exact H3|].
  exact (failed_simulation_changes_nothing (lib:=sample_library)
           no_recipient_event empty_sys (KeyError "recipient") H1 H2 H3).
Defined.

Lemma event_identifier_inj_witness :
  event_identifier (sample_event 0 50) = event_identifier redelivered_without_token ∧
  (transactionHash (sample_event 0 50) = transactionHash redelivered_without_token ∧
   logIndex (sample_event 0 50) = logIndex redelivered_without_token) ∧
  logIndex (sample_event 0 50) ≠ logIndex (sample_event 1 75) ∧
  res (has_processed (event_identifier (sample_event 1 75))
         (post (process_lock_event (lib:=sample_library) (sample_event 0 50) empty_sys))) =
  res (has_processed (event_identifier (sample_event 1 75)) empty_sys).
Proof.
  assert (H : event_identifier (sample_event 0 50) =
              event_identifier redelivered_without_token) by reflexivity.
  assert (Hne : logIndex (sample_event 0 50) ≠ logIndex (sample_event 1 75))
    by discriminate.
  split; [exact H|]. split.
  - exact (proj1 (event_identifier_inj (lib:=sample_library) (sample_event 0 50)
                    redelivered_without_token) H).
  - split; [exact Hne|].
    exact (proj2 (event_identifier_inj (lib:=sample_library) (sample_event 0 50)
                    (sample_event 1 75)) (or_intror Hne) empty_sys).
Defined.

Lemma connector_without_retries_is_silently_down_witness :
  0 <= 0 ∧
  let r := BlockchainConnector_init "https://rpc.example" 0 5 [Up 11155111] start_world in
  r = (Done tt, {| sys := sys start_world; web3 := None |}, []) ∧
  pres (is_connected true (ppost r)) = Done false.
Proof.
  assert (H : 0 <= 0) by lia.
  split; [exact H|].
  exact (connector_without_retries_is_silently_down "https://rpc.example" 0 5
           [Up 11155111] true start_world H).
Defined.



Lemma main_fails_before_the_state_store_witness :
  not_set (RPC_URL down_env) = false ∧
  not_set (BRIDGE_CONTRACT_ADDRESS down_env) = false ∧
  (∀ i, (i < 3)%nat → refuses (answer_of (drop i (node_answers down_env))) = true) ∧
  let r := main (lib:=sample_library) down_env start_world in
  (∃ f, pres r = Failed f ∧ is_ConnectionError f = true) ∧
  sys (ppost r) = set_clock (clock (sys start_world) + 10) (sys start_world) ∧
  attempts_made (pobs r) = 3%nat ∧
  List.filter is_core (pobs r) = [Core (Sleep 5); Core (Sleep 5)].
Proof.
  assert (H1 : not_set (RPC_URL down_env) = false) by reflexivity.
  assert (H2 : not_set (BRIDGE_CONTRACT_ADDRESS down_env) = false) by reflexivity.
  assert (H3 : ∀ i, (i < 3)%nat →
                    refuses (answer_of (drop i (node_answers down_env))) = true).
  { intros [|[|[|i]]] Hi; [reflexivity|reflexivity|reflexivity|lia]. }
  split; [exact H1|]. split; [exact H2|]. split; [exact H3|].
  exact (main_fails_before_the_state_store (lib:=sample_library)
           down_env start_world H1 H2 H3).
Defined.

Lemma main_without_contract_never_polls_witness :
  contract_binding mismatched_env ≠ Bound ∧
  main (lib:=sample_library)
    (with_polls [Connected (Ret two_events); Disconnected] mismatched_env) start_world =
  main (lib:=sample_library) (with_polls [] mismatched_env) start_world.
Proof.
  assert (H : contract_binding mismatched_env ≠ Bound) by discriminate.
  split; [exact H|].
  exact (main_without_contract_never_polls (lib:=sample_library) mismatched_env
           [Connected (Ret two_events); Disconnected] start_world
           (or_intror (or_intror (or_intror H)))).
Defined.

Lemma main_runs_the_loop_on_the_loaded_state_witness :
  Forall (fun b => refuses b = true) [Down] ∧
  res (StateDB_init (set_clock (clock (sys start_world) + Z.of_nat (List.length [Down]) * 5)
                       (sys start_world))) = Ret tt ∧
  let s1 := set_clock (clock (sys start_world) + Z.of_nat (List.length [Down]) * 5)
              (sys start_world) in
  let loop := start_listening (lib:=sample_library) true (filter_created sample_env) 10
                (polls sample_env) (post (StateDB_init s1)) in
  let r := main (lib:=sample_library) sample_env start_world in
  (∃ e, res loop = Ret e ∧ pres r = Done e ∧
        (e = Returned ↔
         filter_created sample_env = false ∨ In Disconnected (polls sample_env))) ∧
  ppost r = {| sys := post loop; web3 := Some "https://rpc.example" |} ∧
  List.filter is_core (pobs r) =
    replicate (List.length [Down]) (Core (Sleep 5)) ++
    List.map Core (obs (StateDB_init s1) ++ obs loop).
Proof.
  assert (H1 : Forall (fun b => refuses b = true) [Down])
    by (apply Forall_cons_2; [reflexivity|apply Forall_nil_2]).
  assert (H2 : res (StateDB_init
                      (set_clock (clock (sys start_world) +
                                  Z.of_nat (List.length [Down]) * 5)
                         (sys start_world))) = Ret tt) by reflexivity.
  assert (H3 : (List.length [Down] < 3)%nat) by (cbn; lia).
  split; [exact H1|]. split; [exact H2|].
  exact (main_runs_the_loop_on_the_loaded_state (lib:=sample_library)
           sample_env start_world "https://rpc.example"
           "0x00000000000000000000000000000000000000c4"
           "0x00000000000000000000000000000000000000c4"
           [Down] 11155111 []
           eq_refl eq_refl eq_refl eq_refl eq_refl H1 H3 eq_refl eq_refl eq_refl eq_refl
           H2).
Defined.

Lemma main_stops_on_unreadable_state_file_witness :
  disk (sys unreadable_world) = Unreadable ∧
  let r := main (lib:=sample_library) sample_env unreadable_world in
  pres r = Failed (Py_raised PermissionError) ∧
  ppost r = {| sys := set_clock (clock (sys unreadable_world) +
                                 Z.of_nat (List.length [Down]) * 5)
                        (sys unreadable_world);
               web3 := Some "https://rpc.example" |} ∧
  List.filter is_core (pobs r) = replicate (List.length [Down]) (Core (Sleep 5)).
Proof.
  assert (H1 : Forall (fun b => refuses b = true) [Down])
    by (apply Forall_cons_2; [reflexivity|apply Forall_nil_2]).
  assert (H2 : disk (sys unreadable_world) = Unreadable) by reflexivity.
  assert (H3 : (List.length [Down] < 3)%nat) by (cbn; lia).
  split; [exact H2|].
  exact (main_stops_on_unreadable_state_file (lib:=sample_library)
           sample_env unreadable_world "https://rpc.example"
           "0x00000000000000000000000000000000000000c4"
           [Down] 11155111 []
           eq_refl eq_refl eq_refl eq_refl eq_refl H1 H3 H2).
Defined.
